(** * apache-access-summarizer: IP-to-country attribution

    A shallow embedding of [src/app/src/apache-access-summarizer.py]
    (functions [get_iso_country_codes], [CountryCidrMapper.load_country_data],
    [CountryCidrMapper.download_ip_blocks] and
    [CountryCidrMapper.get_country_from_ip], and of the script that uses
    them: its start, its log loop and its top-ten lists) together with the
    standard library routines they call ([ipaddress], [bisect], [str]
    methods, [collections.Counter]).

    Conventions.
    - Python [int] is [Z]; list positions inside [bisect] are [nat].
    - Python [str] is [string]; a character is a code point below 256.
    - A computation that may raise returns a [result]; the exception
      classes that the source distinguishes are the constructors of [exn].
    - Network access is an oracle carried by the [World]; code that performs
      requests lives in the state-and-exception monad [M].
    - Text written with [print] is not modelled. *)

From Stdlib Require Import ZArith List String Ascii Bool Lia Sorted Permutation.
From Equations Require Import Equations.
Import ListNotations.
Local Open Scope string_scope.
Local Open Scope Z_scope.

(* ================================================================== *)
(** ** Exceptions and results                                          *)
(* ================================================================== *)

(** The exception classes that occur.  [AddressValueError],
    [NetmaskValueError] and [UnicodeDecodeError] are subclasses of
    [ValueError]; [RequestException] stands for the class of that name in
    [requests.exceptions] and its subclasses (ConnectionError, HTTPError,
    Timeout, ...). *)
Inductive exn : Type :=
| ValueError
| AddressValueError
| NetmaskValueError
| UnicodeDecodeError
| KeyError
| IndexError
| AttributeError
| RequestException (detail : string)
| OtherException (detail : string).

Definition isinstance_ValueError (e : exn) : bool :=
  match e with
  | ValueError | AddressValueError | NetmaskValueError | UnicodeDecodeError => true
  | _ => false
  end.

Definition isinstance_KeyError (e : exn) : bool :=
  match e with KeyError => true | _ => false end.

Definition isinstance_RequestException (e : exn) : bool :=
  match e with RequestException _ => true | _ => false end.

Inductive result (A : Type) : Type :=
| Ok (a : A)
| Raise (e : exn).
Arguments Ok {A} a.
Arguments Raise {A} e.

Definition rbind {A B} (r : result A) (k : A -> result B) : result B :=
  match r with
  | Ok a => k a
  | Raise e => Raise e
  end.

(** [try: r except cls: h] *)
Definition try_except {A} (r : result A) (cls : exn -> bool) (h : exn -> result A)
  : result A :=
  match r with
  | Ok a => Ok a
  | Raise e => if cls e then h e else Raise e
  end.

Declare Scope result_scope.
Delimit Scope result_scope with result.
Notation "x <- r ;; k" := (rbind r (fun x => k))
  (at level 61, r at next level, right associativity) : result_scope.
Notation "' pat <- r ;; k" := (rbind r (fun x => match x with pat => k end))
  (at level 61, pat pattern, r at next level, right associativity) : result_scope.

(** [map f xs] where [f] may raise: the first failure aborts. *)
Fixpoint mapM {A B} (f : A -> result B) (xs : list A) : result (list B) :=
  match xs with
  | [] => Ok []
  | x :: xs' =>
      match f x with
      | Raise e => Raise e
      | Ok y => match mapM f xs' with
                | Raise e => Raise e
                | Ok ys => Ok (y :: ys)
                end
      end
  end.

(* ================================================================== *)
(** ** [str] methods                                                   *)
(* ================================================================== *)

Module str.

Definition ord (c : ascii) : Z := Z.of_nat (nat_of_ascii c).

Definition is_empty (s : string) : bool :=
  match s with EmptyString => true | _ => false end.

(** [c in s] for a one-character [c]. *)
Fixpoint contains (c : ascii) (s : string) : bool :=
  match s with
  | EmptyString => false
  | String d s' => Ascii.eqb d c || contains c s'
  end.

Fixpoint forallb (p : ascii -> bool) (s : string) : bool :=
  match s with
  | EmptyString => true
  | String c s' => p c && forallb p s'
  end.

(** [s.split(sep)] for a one-character separator: never empty. *)
Fixpoint split (sep : ascii) (s : string) : list string :=
  match s with
  | EmptyString => [EmptyString]
  | String c s' =>
      if Ascii.eqb c sep then EmptyString :: split sep s'
      else match split sep s' with
           | [] => [String c EmptyString]
           | h :: t => String c h :: t
           end
  end.

(** [s.partition(sep)]: text before the first [sep], whether [sep] was
    found, text after it. *)
Fixpoint partition (sep : ascii) (s : string) : string * bool * string :=
  match s with
  | EmptyString => (EmptyString, false, EmptyString)
  | String c s' =>
      if Ascii.eqb c sep then (EmptyString, true, s')
      else let '(a, found, b) := partition sep s' in (String c a, found, b)
  end.

Definition is_ascii_digit (c : ascii) : bool :=
  (48 <=? ord c) && (ord c <=? 57).

(** [s.isascii() and s.isdigit()]; [isdigit] is false on the empty
    string. *)
Definition isascii_isdigit (s : string) : bool :=
  negb (is_empty s) && forallb is_ascii_digit s.

(** The white space that [strip()] removes, among code points < 256. *)
Definition isspace (c : ascii) : bool :=
  let n := ord c in
  ((9 <=? n) && (n <=? 13)) || ((28 <=? n) && (n <=? 32))
  || (n =? 133) || (n =? 160).

Fixpoint lstrip (s : string) : string :=
  match s with
  | EmptyString => EmptyString
  | String c s' => if isspace c then lstrip s' else s
  end.

Fixpoint rstrip (s : string) : string :=
  match s with
  | EmptyString => EmptyString
  | String c s' =>
      let r := rstrip s' in
      if isspace c && is_empty r then EmptyString else String c r
  end.

Definition strip (s : string) : string := rstrip (lstrip s).

(** ASCII case mapping, the behaviour of [upper()] / [lower()] on ASCII
    text.  The program itself is parameterised by the case mappings (see
    Section [Program]); these are the instances used on ASCII data. *)
Definition ascii_upper_char (c : ascii) : ascii :=
  let n := nat_of_ascii c in
  if (Nat.leb 97 n && Nat.leb n 122)%bool then ascii_of_nat (n - 32) else c.

Definition ascii_lower_char (c : ascii) : ascii :=
  let n := nat_of_ascii c in
  if (Nat.leb 65 n && Nat.leb n 90)%bool then ascii_of_nat (n + 32) else c.

Fixpoint map_chars (f : ascii -> ascii) (s : string) : string :=
  match s with
  | EmptyString => EmptyString
  | String c s' => String (f c) (map_chars f s')
  end.

Definition ascii_upper : string -> string := map_chars ascii_upper_char.
Definition ascii_lower : string -> string := map_chars ascii_lower_char.

End str.

(** [int(s, 10)] on a string of ASCII digits. *)
Fixpoint int10_acc (acc : Z) (s : string) : Z :=
  match s with
  | EmptyString => acc
  | String c s' => int10_acc (10 * acc + (str.ord c - 48)) s'
  end.
Definition int10 (s : string) : Z := int10_acc 0 s.

Definition hex_value (c : ascii) : option Z :=
  let n := str.ord c in
  if (48 <=? n) && (n <=? 57) then Some (n - 48)
  else if (65 <=? n) && (n <=? 70) then Some (n - 55)
  else if (97 <=? n) && (n <=? 102) then Some (n - 87)
  else None.

Definition is_hex_digit (c : ascii) : bool :=
  match hex_value c with Some _ => true | None => false end.

(** [int(s, 16)] on a string of hexadecimal digits. *)
Fixpoint int16_acc (acc : Z) (s : string) : Z :=
  match s with
  | EmptyString => acc
  | String c s' =>
      int16_acc (16 * acc + match hex_value c with Some v => v | None => 0 end) s'
  end.
Definition int16 (s : string) : Z := int16_acc 0 s.

Definition hex_char (d : Z) : ascii :=
  ascii_of_nat (Z.to_nat (if d <? 10 then 48 + d else 87 + d)).

(** ['%x' % n] for [0 <= n < 16^4]. *)
Fixpoint format_x_acc (digits : nat) (n : Z) (acc : string) : string :=
  match digits with
  | O => acc
  | S d =>
      let acc' := String (hex_char (n mod 16)) acc in
      if n / 16 =? 0 then acc' else format_x_acc d (n / 16) acc'
  end.
Definition format_x (n : Z) : string := format_x_acc 4 n EmptyString.

(* ================================================================== *)
(** ** The [ipaddress] module                                          *)
(* ================================================================== *)

Module ipaddress.

Local Open Scope result_scope.

(** An address object: an IPv4 or an IPv6 address with its integer value
    [_ip]. *)
Inductive address : Type :=
| V4 (ip : Z)
| V6 (ip : Z) (scope_id : option string).

(** [int(ip_obj)] *)
Definition int (a : address) : Z :=
  match a with V4 ip => ip | V6 ip _ => ip end.

Definition ALL_ONES : Z := 2 ^ 32 - 1.
Definition max_prefixlen : Z := 32.

(** [IPv4Address._parse_octet] (leading zeros are refused, as in
    Python 3.9.5 and later). *)
Definition parse_octet (octet_str : string) : result Z :=
  if str.is_empty octet_str then Raise ValueError
  else if negb (str.isascii_isdigit octet_str) then Raise ValueError
  else if (3 <? Z.of_nat (String.length octet_str)) then Raise ValueError
  else if negb (String.eqb octet_str "0")
          && match octet_str with String c _ => Ascii.eqb c "0" | _ => false end
       then Raise ValueError
  else
    let octet_int := int10 octet_str in
    if 255 <? octet_int then Raise ValueError else Ok octet_int.

(** [int.from_bytes(bs, 'big')] *)
Definition from_bytes_big (bs : list Z) : Z :=
  fold_left (fun acc b => 256 * acc + b) bs 0.

(** [IPv4Address._ip_int_from_string] *)
Definition ip4_int_from_string (ip_str : string) : result Z :=
  if str.is_empty ip_str then Raise AddressValueError
  else
    let octets := str.split "." ip_str in
    if negb (Nat.eqb (List.length octets) 4) then Raise AddressValueError
    else
      match mapM parse_octet octets with
      | Ok bs => Ok (from_bytes_big bs)
      | Raise _ => Raise AddressValueError
      end.

(** [IPv4Address(address)] for a string argument. *)
Definition IPv4Address (addr_str : string) : result Z :=
  if str.contains "/" addr_str then Raise AddressValueError
  else ip4_int_from_string addr_str.

(** [IPv6Address._parse_hextet] *)
Definition parse_hextet (hextet_str : string) : result Z :=
  if negb (str.forallb is_hex_digit hextet_str) then Raise ValueError
  else if (4 <? Z.of_nat (String.length hextet_str)) then Raise ValueError
  else if str.is_empty hextet_str then Raise ValueError
  else Ok (int16 hextet_str).

(** [IPv6Address._split_scope_id] *)
Definition split_scope_id (ip_str : string) : result (string * option string) :=
  let '(addr, sep, scope_id) := str.partition "%" ip_str in
  if negb sep then Ok (addr, None)
  else if str.is_empty scope_id || str.contains "%" scope_id
       then Raise AddressValueError
  else Ok (addr, Some scope_id).

(** The scan for ['::'] of [IPv6Address._ip_int_from_string]:
    [for i in range(1, len(parts) - 1): if not parts[i]: ...].
    [inner] are the parts at positions [i, i+1, ...]. *)
Fixpoint find_skip (inner : list string) (i : nat) (skip_index : option nat)
  : result (option nat) :=
  match inner with
  | [] => Ok skip_index
  | p :: rest =>
      if str.is_empty p then
        match skip_index with
        | Some _ => Raise AddressValueError
        | None => find_skip rest (S i) (Some i)
        end
      else find_skip rest (S i) skip_index
  end.

(** [ip_int <<= 16; ip_int |= parse_hextet(part)] over a run of parts. *)
Fixpoint fold_hextets (ip_int : Z) (ps : list string) : result Z :=
  match ps with
  | [] => Ok ip_int
  | p :: rest =>
      h <- parse_hextet p ;;
      fold_hextets (Z.lor (Z.shiftl ip_int 16) h) rest
  end.

Definition HEXTET_COUNT : nat := 8.

(** [IPv6Address._ip_int_from_string] *)
Definition ip6_int_from_string (ip_str : string) : result Z :=
  if str.is_empty ip_str then Raise AddressValueError
  else
    let parts := str.split ":" ip_str in
    if Nat.ltb (List.length parts) 3 then Raise AddressValueError
    else
      parts <-
        (let last_part := List.last parts EmptyString in
         if str.contains "." last_part then
           match IPv4Address last_part with
           | Raise _ => Raise AddressValueError
           | Ok ipv4_int =>
               Ok (List.removelast parts
                     ++ [format_x (Z.land (Z.shiftr ipv4_int 16) 65535);
                         format_x (Z.land ipv4_int 65535)])%list
           end
         else Ok parts) ;;
      let n := List.length parts in
      if Nat.ltb (S HEXTET_COUNT) n then Raise AddressValueError
      else
        skip_index <- find_skip (List.removelast (List.tl parts)) 1 None ;;
        let first_empty := str.is_empty (List.hd EmptyString parts) in
        let last_empty := str.is_empty (List.last parts EmptyString) in
        '(parts_hi, parts_lo, parts_skipped) <-
          match skip_index with
          | Some k =>
              let parts_hi := k in
              let parts_lo := (n - k - 1)%nat in
              parts_hi <-
                (if first_empty then
                   if Nat.eqb (parts_hi - 1) 0 then Ok (parts_hi - 1)%nat
                   else Raise AddressValueError
                 else Ok parts_hi) ;;
              parts_lo <-
                (if last_empty then
                   if Nat.eqb (parts_lo - 1) 0 then Ok (parts_lo - 1)%nat
                   else Raise AddressValueError
                 else Ok parts_lo) ;;
              if Nat.leb HEXTET_COUNT (parts_hi + parts_lo)
              then Raise AddressValueError
              else Ok (parts_hi, parts_lo, (HEXTET_COUNT - (parts_hi + parts_lo))%nat)
          | None =>
              if negb (Nat.eqb n HEXTET_COUNT) then Raise AddressValueError
              else if first_empty then Raise AddressValueError
              else if last_empty then Raise AddressValueError
              else Ok (n, O, O)
          end ;;
        match
          (ip_int <- fold_hextets 0 (List.firstn parts_hi parts) ;;
           fold_hextets (Z.shiftl ip_int (16 * Z.of_nat parts_skipped))
                        (List.skipn (n - parts_lo) parts))
        with
        | Ok ip_int => Ok ip_int
        | Raise _ => Raise AddressValueError
        end.

(** [IPv6Address(address)] for a string argument. *)
Definition IPv6Address (addr_str : string) : result address :=
  if str.contains "/" addr_str then Raise AddressValueError
  else
    '(addr, scope_id) <- split_scope_id addr_str ;;
    ip <- ip6_int_from_string addr ;;
    Ok (V6 ip scope_id).

Definition is_Address_or_Netmask_ValueError (e : exn) : bool :=
  match e with AddressValueError | NetmaskValueError => true | _ => false end.

(** [ip_address(address)]: an IPv4 address if the text parses as one,
    else an IPv6 address if it parses as one, else [ValueError]. *)
Definition ip_address (addr : string) : result address :=
  try_except (ip <- IPv4Address addr ;; Ok (V4 ip))
    is_Address_or_Netmask_ValueError
    (fun _ =>
       try_except (IPv6Address addr)
         is_Address_or_Netmask_ValueError
         (fun _ => Raise ValueError)).

(** An [IPv4Network] object. *)
Record network : Type := mk_network {
  network_address : Z;
  netmask : Z;
  prefixlen : Z
}.

(** [_split_optional_netmask] followed by [_split_addr_prefix]: the address
    text and the mask argument ([None] stands for the integer default
    [max_prefixlen] used when the text has no ['/']). *)
Definition split_addr_prefix (cidr : string) : result (string * option string) :=
  match str.split "/" cidr with
  | [a] => Ok (a, None)
  | [a; m] => Ok (a, Some m)
  | _ => Raise AddressValueError
  end.

(** [_prefix_from_prefix_string] *)
Definition prefix_from_prefix_string (prefixlen_str : string) : result Z :=
  if negb (str.isascii_isdigit prefixlen_str) then Raise NetmaskValueError
  else
    let p := int10 prefixlen_str in
    if negb ((0 <=? p) && (p <=? max_prefixlen)) then Raise NetmaskValueError
    else Ok p.

(** [int.bit_length()] *)
Definition bit_length (n : Z) : Z :=
  if n =? 0 then 0 else Z.log2 (Z.abs n) + 1.

(** [_count_righthand_zero_bits] *)
Definition count_righthand_zero_bits (number bits : Z) : Z :=
  if number =? 0 then bits
  else Z.min bits (bit_length (Z.land (Z.lnot number) (number - 1))).

(** [_prefix_from_ip_int] *)
Definition prefix_from_ip_int (ip_int : Z) : result Z :=
  let trailing_zeroes := count_righthand_zero_bits ip_int max_prefixlen in
  let p := max_prefixlen - trailing_zeroes in
  let leading_ones := Z.shiftr ip_int trailing_zeroes in
  let all_ones := Z.shiftl 1 p - 1 in
  if negb (leading_ones =? all_ones) then Raise ValueError else Ok p.

(** [_prefix_from_ip_string]: a dotted-quad netmask or hostmask. *)
Definition prefix_from_ip_string (ip_str : string) : result Z :=
  match ip4_int_from_string ip_str with
  | Raise _ => Raise NetmaskValueError
  | Ok ip_int =>
      match prefix_from_ip_int ip_int with
      | Ok p => Ok p
      | Raise _ =>
          match prefix_from_ip_int (Z.lxor ip_int ALL_ONES) with
          | Ok p => Ok p
          | Raise _ => Raise NetmaskValueError
          end
      end
  end.

(** [_ip_int_from_prefix] *)
Definition ip_int_from_prefix (p : Z) : Z :=
  Z.lxor ALL_ONES (Z.shiftr ALL_ONES p).

(** [_make_netmask]: the netmask as an integer, and the prefix length. *)
Definition make_netmask (arg : option string) : result (Z * Z) :=
  p <- match arg with
       | None => Ok max_prefixlen
       | Some mask =>
           try_except (prefix_from_prefix_string mask)
             (fun e => match e with NetmaskValueError => true | _ => false end)
             (fun _ => prefix_from_ip_string mask)
       end ;;
  Ok (ip_int_from_prefix p, p).

(** [IPv4Network(address, strict)] for a string argument. *)
Definition IPv4Network (cidr : string) (strict : bool) : result network :=
  '(addr, mask) <- split_addr_prefix cidr ;;
  packed <- IPv4Address addr ;;
  '(nm, p) <- make_netmask mask ;;
  if negb (Z.land packed nm =? packed) then
    if strict then Raise ValueError
    else Ok (mk_network (Z.land packed nm) nm p)
  else Ok (mk_network packed nm p).

(** [ip_obj in network] ([_BaseNetwork.__contains__]): false across
    versions, else a comparison under the netmask. *)
Definition contains (net : network) (ip_obj : address) : bool :=
  match ip_obj with
  | V6 _ _ => false
  | V4 ip => Z.land ip (netmask net) =? network_address net
  end.

(** [network.hostmask] and [network.broadcast_address], the last address
    of the block. *)
Definition hostmask (net : network) : Z := Z.lxor (netmask net) ALL_ONES.
Definition broadcast_address (net : network) : Z :=
  Z.lor (network_address net) (hostmask net).

End ipaddress.

(* ================================================================== *)
(** ** [bisect.bisect_right] and list indexing                         *)
(* ================================================================== *)

(** [a[j]] for a Python list: a negative index counts from the end, and an
    index outside [-len(a), len(a)) raises [IndexError]. *)
Definition getitem {A} (a : list A) (j : Z) : result A :=
  let n := Z.of_nat (List.length a) in
  let k := if j <? 0 then j + n else j in
  if (k <? 0) || (n <=? k) then Raise IndexError
  else match nth_error a (Z.to_nat k) with
       | Some x => Ok x
       | None => Raise IndexError
       end.

(** [range(lo, hi)] *)
Definition range (lo hi : Z) : list Z :=
  map (fun k => lo + Z.of_nat k) (seq 0 (Z.to_nat (hi - lo))).

Module bisect.

(** The loop of [bisect_right(a, x)]:
    [while lo < hi: mid = (lo + hi) // 2;
       if x < a[mid]: hi = mid  else: lo = mid + 1]. *)
Equations? loop (a : list Z) (x : Z) (lo hi : nat) : result nat
  by wf (hi - lo)%nat lt :=
  loop a x lo hi with lt_dec lo hi => {
    | right _ => Ok lo
    | left _ with getitem a (Z.of_nat ((lo + hi) / 2)) => {
        | Raise e => Raise e
        | Ok v with Z_lt_dec x v => {
            | left _ => loop a x lo ((lo + hi) / 2)
            | right _ => loop a x (S ((lo + hi) / 2)) hi } } }.
Proof.
  all: change (fst (Nat.divmod (lo + hi) 1 0 1)) with ((lo + hi) / 2)%nat;
    pose proof (Nat.div_mod_eq (lo + hi) 2);
    pose proof (Nat.mod_upper_bound (lo + hi) 2 ltac:(lia)); lia.
Qed.

(** [bisect_right(a, x)] with the defaults [lo = 0], [hi = len(a)]. *)
Definition bisect_right (a : list Z) (x : Z) : result nat :=
  loop a x 0 (List.length a).

End bisect.

(* ================================================================== *)
(** ** The outside world: HTTP requests                                *)
(* ================================================================== *)

(** What the program reads of a [requests.Response]. *)
Record Response : Type := mk_Response {
  status_code : Z;
  text : string;
  content : string
}.

(** The world answers the [n]-th request of a run, made to [url], with a
    response or an exception; [sent] logs the URLs requested so far. *)
Record World : Type := mk_World {
  oracle : nat -> string -> result Response;
  sent : list string
}.

(** Computations that make requests and may raise. *)
Definition M (A : Type) : Type := World -> result A * World.

Definition ret {A} (a : A) : M A := fun w => (Ok a, w).
Definition lift {A} (r : result A) : M A := fun w => (r, w).
Definition mbind {A B} (m : M A) (k : A -> M B) : M B :=
  fun w => match m w with
           | (Ok a, w') => k a w'
           | (Raise e, w') => (Raise e, w')
           end.

(** [try: m except cls as e: h e] *)
Definition try_exceptM {A} (m : M A) (cls : exn -> bool) (h : exn -> M A) : M A :=
  fun w => match m w with
           | (Ok a, w') => (Ok a, w')
           | (Raise e, w') => if cls e then h e w' else (Raise e, w')
           end.

Declare Scope M_scope.
Delimit Scope M_scope with M.
Notation "x <- m ;; k" := (mbind m (fun x => k))
  (at level 61, m at next level, right associativity) : M_scope.

(** [requests.get(url)] *)
Definition get (url : string) : M Response :=
  fun w => (oracle w (List.length (sent w)) url,
            mk_World (oracle w) (sent w ++ [url])).

(** [response.raise_for_status()]: [HTTPError], a [RequestException], on a
    4xx or 5xx status. *)
Definition raise_for_status (r : Response) : result unit :=
  if (400 <=? status_code r) && (status_code r <? 600)
  then Raise (RequestException "HTTPError")
  else Ok tt.

(** The body of the [try] inside both download loops:
    [response = get(url); response.raise_for_status()]. *)
Definition fetch (url : string) : M Response :=
  (response <- get url ;;
   _ <- lift (raise_for_status response) ;;
   ret response)%M.

(** The download loop, written out twice in the source (lines 37-48 and
    71-82) with the request as its operation:
    [[
      attempt = 0
      while True:
          attempt += 1
          try:
              <op>; break
          except Exception as e:
              if attempt >= 3: raise e
              else: print(...)
    ]]
    [attempt] is the counter's value on entry to an iteration.  (The
    [print] is not modelled.) *)
Equations? retry_loop {A} (op : M A) (attempt : nat) (w : World)
  : result A * World by wf (3 - attempt)%nat lt :=
  retry_loop op attempt w with op w => {
    | (Ok a, w') => (Ok a, w')
    | (Raise e, w') with le_dec 3 (S attempt) => {
        | left _ => (Raise e, w')
        | right _ => retry_loop op (S attempt) w' } }.
Proof. destruct attempt as [|[|[|?]]]; lia. Qed.

Definition with_retry {A} (op : M A) : M A := retry_loop op 0.

(* ================================================================== *)
(** ** The program                                                     *)
(* ================================================================== *)

(** A row produced by [csv.DictReader]: a dict from field names to values;
    a value is [None] when the row is shorter than the header.  The reader
    is an iterator: each step yields a row or raises. *)
Definition row : Type := list (string * option string).
Definition reader : Type := list (result row).

Fixpoint row_get (r : row) (k : string) : option (option string) :=
  match r with
  | [] => None
  | (k', v) :: r' => if String.eqb k' k then Some v else row_get r' k
  end.

(** A member of the tar archive, as [extractfile] and the read that follows
    see it: a regular file with its content decoded from UTF-8 ([None] when
    the bytes are not valid UTF-8), or a member that is not a file, for
    which [extractfile] returns [None]. *)
Inductive TarMember : Type :=
| RegularFile (decoded : option string)
| NotRegular.

(** A [TarFile]: its members in archive order, by name. *)
Definition TarFile : Type := list (string * TarMember).

(** [TarFile.getmember(name)]: the last member of that name, or
    [KeyError]. *)
Fixpoint getmember (tar : TarFile) (name : string) : result TarMember :=
  match tar with
  | [] => Raise KeyError
  | (n, m) :: rest =>
      match getmember rest name with
      | Ok m' => Ok m'
      | Raise _ => if String.eqb n name then Ok m else Raise KeyError
      end
  end.

(** An element of [NETWORK_MAP]:
    [(int(network.network_address), network, code.upper())]. *)
Definition entry : Type := (Z * ipaddress.network * string)%type.

Definition start_of (e : entry) : Z := fst (fst e).
Definition network_of (e : entry) : ipaddress.network := snd (fst e).
Definition country_of (e : entry) : string := snd e.

(** [sorted(xs, key=lambda x: x[0])].  Python's sort is stable, and a
    stable sort is determined by its input: insertion that places an
    element before the first one whose key is not smaller. *)
Fixpoint insert_by_start (x : entry) (l : list entry) : list entry :=
  match l with
  | [] => [x]
  | y :: l' =>
      if start_of x <=? start_of y then x :: y :: l'
      else y :: insert_by_start x l'
  end.

Definition sorted_by_start (l : list entry) : list entry :=
  fold_right insert_by_start [] l.

(** The state of a [CountryCidrMapper] object. *)
Record CountryCidrMapper : Type := mk_mapper {
  NETWORK_MAP : list entry;
  country_zones : option TarFile
}.

Definition newline : ascii := ascii_of_nat 10.

Section Program.

(** Library routines the program is parameterised by: the case mappings
    [str.upper] and [str.lower], [csv.DictReader] over a text (the rows it
    yields, in order, up to the first error if any), and [TarFile.open] on
    the bytes downloaded. *)
Variable str_upper : string -> string.
Variable str_lower : string -> string.
Variable DictReader : string -> reader.
Variable TarFile_open : string -> result TarFile.

Definition country_list_url : string :=
  "https://datahub.io/core/country-list/_r/-/data.csv".
Definition all_zones_url : string :=
  "https://www.ipdeny.com/ipblocks/data/countries/all-zones.tar.gz".

(** [[row['Code'].lower() for row in rdr if 'Code' in row]] *)
Fixpoint codes_of_rows (rdr : reader) : result (list string) :=
  match rdr with
  | [] => Ok []
  | Raise e :: _ => Raise e
  | Ok r :: rdr' =>
      match row_get r "Code" with
      | None => codes_of_rows rdr'
      | Some None => Raise AttributeError
      | Some (Some v) =>
          (rest <- codes_of_rows rdr' ;; Ok (str_lower v :: rest))%result
      end
  end.

(** [get_iso_country_codes()] *)
Definition get_iso_country_codes : M (list string) :=
  try_exceptM
    (response <- with_retry (fetch country_list_url) ;;
     let rdr := DictReader (text response) in
     country_codes <- lift (codes_of_rows rdr) ;;
     ret country_codes)%M
    isinstance_RequestException
    (fun _ => ret []).

(** [TarFile.extractfile(name)]: [KeyError] for a missing member, [None]
    for a member that is not a file, else the file. *)
Definition extractfile (tar : TarFile) (name : string)
  : result (option (option string)) :=
  (m <- getmember tar name ;;
   match m with
   | RegularFile decoded => Ok (Some decoded)
   | NotRegular => Ok None
   end)%result.

(** [f"./{country_code}.zone"] *)
Definition zone_member (country_code : string) : string :=
  "./" ++ country_code ++ ".zone".

(** [CountryCidrMapper.download_ip_blocks(self, country_code)] *)
Definition download_ip_blocks (self : CountryCidrMapper) (country_code : string)
  : result (list string) :=
  match country_zones self with
  | None => Raise AttributeError
  | Some zones =>
      match extractfile zones (zone_member country_code) with
      | Raise e => if isinstance_KeyError e then Ok [] else Raise e
      | Ok None => Raise AttributeError
      | Ok (Some None) => Raise UnicodeDecodeError
      | Ok (Some (Some decoded)) => Ok (str.split newline (str.strip decoded))
      end
  end.

(** One turn of [for c in cidrs] (lines 99-107): a line that does not parse
    as an IPv4 network is dropped. *)
Definition add_cidr (code : string) (all_networks : list entry) (c : string)
  : list entry :=
  let cidr := str.strip c in
  if str.is_empty cidr then all_networks
  else
    match ipaddress.IPv4Network cidr false with
    | Ok network =>
        all_networks
          ++ [(ipaddress.network_address network, network, str_upper code)]
    | Raise _ => all_networks
    end.

(** [for code in country_codes] (lines 91-111).  Nothing inside the outer
    [try] can raise, the inner [try] catching every exception. *)
Fixpoint load_codes (self : CountryCidrMapper) (country_codes : list string)
  (all_networks : list entry) : result (list entry) :=
  match country_codes with
  | [] => Ok all_networks
  | code :: rest =>
      (cidrs <- download_ip_blocks self code ;;
       load_codes self rest
         (match cidrs with
          | [] => all_networks
          | _ => fold_left (add_cidr code) cidrs all_networks
          end))%result
  end.

(** [CountryCidrMapper.load_country_data(self, country_codes)]: the object
    after the call.  An exception leaves the constructor, so no object
    remains. *)
Definition load_country_data (self : CountryCidrMapper)
  (country_codes : list string) : M CountryCidrMapper :=
  (response <- with_retry (fetch all_zones_url) ;;
   zones <- lift (TarFile_open (content response)) ;;
   let self := mk_mapper (NETWORK_MAP self) (Some zones) in
   all_networks <- lift (load_codes self country_codes []) ;;
   ret (mk_mapper (sorted_by_start all_networks) (country_zones self)))%M.

(** [CountryCidrMapper.__init__(self, country_codes)] *)
Definition CountryCidrMapper_init (country_codes : list string)
  : M CountryCidrMapper :=
  load_country_data (mk_mapper [] None) country_codes.

(** [for j in range(max(0, i - 2), i)] (lines 158-163): the country code
    of the first candidate that contains the address, if any. *)
Fixpoint scan (self : CountryCidrMapper) (ip_obj : ipaddress.address)
  (js : list Z) : result (option string) :=
  match js with
  | [] => Ok None
  | j :: rest =>
      ('(_, network, country_code) <- getitem (NETWORK_MAP self) j ;;
       if ipaddress.contains network ip_obj then Ok (Some country_code)
       else scan self ip_obj rest)%result
  end.

(** The positions the loop visits. *)
Definition candidates (i : nat) : list Z :=
  range (Z.max 0 (Z.of_nat i - 2)) (Z.of_nat i).

(** [CountryCidrMapper.get_country_from_ip(self, ip)]: the value returned
    (or the exception that escapes) and the object after the call. *)
Definition get_country_from_ip (self : CountryCidrMapper) (ip : string)
  : result string * CountryCidrMapper :=
  (try_except
     (ip_obj <- ipaddress.ip_address ip ;;
      let ip_int := ipaddress.int ip_obj in
      let network_start_addresses :=
        map (fun item : entry => fst (fst item)) (NETWORK_MAP self) in
      i <- bisect.bisect_right network_start_addresses ip_int ;;
      found <- scan self ip_obj (candidates i) ;;
      match found with
      | Some country_code => Ok country_code
      | None => Ok "UNKNOWN"
      end)%result
     isinstance_ValueError
     (fun _ => Ok "INVALID IP"),
   self).

End Program.

(** The value a query returns. *)
Definition resolve (self : CountryCidrMapper) (ip : string) : result string :=
  fst (get_country_from_ip self ip).

(* ================================================================== *)
(** ** Vocabulary of the statements                                    *)
(* ================================================================== *)

Local Open Scope list_scope.

(** Ascending order, position by position. *)
Definition ascending (a : list Z) : Prop :=
  forall j k, (j <= k < List.length a)%nat -> nth j a 0 <= nth k a 0.

Section Vocabulary.

Import ipaddress.

(** The invariant of a network object: a prefix length in [0, 32], the
    netmask of that length, and a 32-bit network address whose host bits
    are zero. *)
Definition wf_network (n : network) : Prop :=
  0 <= prefixlen n <= 32 /\
  netmask n = ip_int_from_prefix (prefixlen n) /\
  0 <= network_address n < 2 ^ 32 /\
  Z.land (network_address n) (netmask n) = network_address n.

(** The range of a network in the specification's terms: from the network
    address to [network address + (2^(32 - prefix length) - 1)]. *)
Definition end_address (n : network) : Z :=
  network_address n + (2 ^ (32 - prefixlen n) - 1).

Definition in_block (n : network) (ip : Z) : Prop :=
  network_address n <= ip <= end_address n.

End Vocabulary.

(** Order by start address. *)
Definition le_start (x y : entry) : Prop := start_of x <= start_of y.

(** An entry as the builder stores it: its first component is the network
    address of a well-formed network. *)
Definition entry_ok (e : entry) : Prop :=
  wf_network (network_of e) /\
  start_of e = ipaddress.network_address (network_of e).

(** Where an entry comes from: a listed code whose archive member was
    read. *)
Definition from_listed (str_upper : string -> string)
  (self : CountryCidrMapper) (codes : list string)
  (e : entry) : Prop :=
  exists c cidrs, In c codes /\ download_ip_blocks self c = Ok cidrs /\
    cidrs <> [] /\ country_of e = str_upper c.

(** The index of a built mapper is sorted by start address and holds
    well-formed entries only. *)
Definition built_index (m : list entry) : Prop :=
  StronglySorted le_start m /\ Forall entry_ok m.

(** A member that is missing or is a readable text file. *)
Definition missing_or_readable (zones : TarFile) (c : string) : Prop :=
  getmember zones (zone_member c) = Raise KeyError \/
  exists decoded, getmember zones (zone_member c) = Ok (RegularFile (Some decoded)).

(** The queries of a run, one after the other: the answers and the object
    after the last one. *)
Fixpoint query_all (self : CountryCidrMapper) (ips : list string)
  : list (result string) * CountryCidrMapper :=
  match ips with
  | [] => ([], self)
  | ip :: rest =>
      let (answer, self') := get_country_from_ip self ip in
      let (answers, self'') := query_all self' rest in
      (answer :: answers, self'')
  end.

(* ================================================================== *)
(** ** Scenarios                                                       *)
(* ================================================================== *)

(** A world in which every request is answered with status 200. *)
Definition quiet_world : World :=
  mk_World (fun _ _ => Ok (mk_Response 200 "" "")) [].

Definition build_from (tar : TarFile) (codes : list string)
  : result CountryCidrMapper * World :=
  CountryCidrMapper_init str.ascii_upper (fun _ => Ok tar) codes quiet_world.

Definition mapper_of (b : result CountryCidrMapper * World) : CountryCidrMapper :=
  match fst b with
  | Ok self => self
  | Raise _ => mk_mapper [] None
  end.

(** The scenario of the specification: [US: 1.0.0.0/24], [CA: 2.0.0.0/24]. *)
Definition scenario_tar : TarFile :=
  [("./us.zone", RegularFile (Some "1.0.0.0/24"));
   ("./ca.zone", RegularFile (Some "2.0.0.0/24"))].
Definition scenario_codes : list string := ["us"; "ca"].
Definition scenario_mapper : CountryCidrMapper :=
  Eval vm_compute in mapper_of (build_from scenario_tar scenario_codes).

(** A block with two blocks of other countries inside it. *)
Definition nested_tar : TarFile :=
  [("./us.zone", RegularFile (Some "1.0.0.0/8"));
   ("./ca.zone", RegularFile (Some "1.1.0.0/24"));
   ("./mx.zone", RegularFile (Some "1.2.0.0/24"))].
Definition nested_codes : list string := ["us"; "ca"; "mx"].
Definition nested_mapper : CountryCidrMapper :=
  Eval vm_compute in mapper_of (build_from nested_tar nested_codes).

(** A block with one block of another country inside it. *)
Definition overlap_tar : TarFile :=
  [("./us.zone", RegularFile (Some "1.0.0.0/8"));
   ("./ca.zone", RegularFile (Some "1.2.0.0/16"))].
Definition overlap_codes : list string := ["us"; "ca"].
Definition overlap_mapper : CountryCidrMapper :=
  Eval vm_compute in mapper_of (build_from overlap_tar overlap_codes).

Definition after_download (w : World) : World :=
  mk_World (oracle w) (sent w ++ [all_zones_url]).

(** A world in which no request succeeds, and one in which the third
    request is the first to succeed. *)
Definition failing_world : World :=
  mk_World (fun n _ => Raise (RequestException "ConnectionError")) [].

Definition flaky_world : World :=
  mk_World (fun n _ => if Nat.ltb n 2 then Raise (RequestException "ConnectionError")
                       else Ok (mk_Response 200 "Code" "")) [].

(** A world whose answers are errors outside [requests]. *)
Definition crashing_world : World :=
  mk_World (fun _ _ => Raise (OtherException "MemoryError")) [].

(** A world in which every request is answered with status 503. *)
Definition unavailable_world : World :=
  mk_World (fun _ _ => Ok (mk_Response 503 "" "")) [].

Definition requested (w : World) (urls : list string) : World :=
  mk_World (oracle w) urls.

(** A member with a blank line, a line that is no CIDR and an IPv6 line,
    and three blocks that start at the same address. *)
Definition nl : string := String newline EmptyString.
Definition mixed_us_text : string :=
  ("10.0.0.5/24" ++ nl ++ nl ++ "  bad line " ++ nl ++ "2001:db8::/32" ++ nl
   ++ "10.0.0.0/8" ++ nl)%string.
Definition mixed_tar : TarFile :=
  [("./us.zone", RegularFile (Some mixed_us_text));
   ("./ca.zone", RegularFile (Some "10.0.0.0/16"))].
Definition mixed_codes : list string := ["us"; "ca"].
Definition mixed_mapper : CountryCidrMapper :=
  Eval vm_compute in mapper_of (build_from mixed_tar mixed_codes).

(** An archive whose member for [ca] is a directory. *)
Definition broken_tar : TarFile :=
  [("./us.zone", RegularFile (Some "1.0.0.0/24"));
   ("./ca.zone", NotRegular)].

(** A country list of three rows, the second without a [Code] field. *)
Definition sample_reader : reader :=
  [Ok [("Code", Some "US"); ("Name", Some "United States")];
   Ok [("Name", Some "Nowhere")];
   Ok [("Code", Some "CA"); ("Name", Some "Canada")]].

(* ================================================================== *)
(** ** The report script ([__main__], lines 170-252)                   *)
(* ================================================================== *)

(** Lines 171-176: the country list is fetched, an empty list stops the
    script with [ParameterError] (a class of the script, written here
    [OtherException "ParameterError"]), otherwise the mapper is built. *)
Definition main_build (str_upper str_lower : string -> string)
  (DictReader : string -> reader) (TarFile_open : string -> result TarFile)
  : M CountryCidrMapper :=
  (all_country_codes <- get_iso_country_codes str_lower DictReader ;;
   match all_country_codes with
   | [] => lift (Raise (OtherException "ParameterError"))
   | _ => CountryCidrMapper_init str_upper TarFile_open all_country_codes
   end)%M.

(** A [collections.Counter]: its items in insertion order. *)
Definition Counter (K : Type) : Type := list (K * Z).

(** [c[k]] on a counter: a missing key counts 0. *)
Fixpoint counter_get {K} (eqb : K -> K -> bool) (c : Counter K) (k : K) : Z :=
  match c with
  | [] => 0
  | (k', n) :: c' => if eqb k' k then n else counter_get eqb c' k
  end.

(** [c[k] += 1]: a present key is updated in place, a new key is added at
    the end. *)
Fixpoint counter_incr {K} (eqb : K -> K -> bool) (k : K) (c : Counter K)
  : Counter K :=
  match c with
  | [] => [(k, 1)]
  | (k', n) :: c' =>
      if eqb k' k then (k', n + 1) :: c' else (k', n) :: counter_incr eqb k c'
  end.

(** [sorted(items, key=itemgetter(1), reverse=True)]: stable, so an item
    goes before the first one whose count is not greater. *)
Fixpoint insert_by_count {K} (x : K * Z) (l : list (K * Z)) : list (K * Z) :=
  match l with
  | [] => [x]
  | y :: l' =>
      if snd y <=? snd x then x :: y :: l' else y :: insert_by_count x l'
  end.

Definition sorted_by_count {K} (l : list (K * Z)) : list (K * Z) :=
  fold_right insert_by_count [] l.

(** [c.most_common(n)], that is [heapq.nlargest(n, c.items(),
    key=itemgetter(1))], which equals
    [sorted(c.items(), key=itemgetter(1), reverse=True)[:n]]. *)
Definition most_common {K} (n : nat) (c : Counter K) : list (K * Z) :=
  firstn n (sorted_by_count c).

(** The sum of the counts. *)
Definition counter_total {K} (c : Counter K) : Z :=
  fold_right (fun kv acc => snd kv + acc) 0 c.

Section LogLoop.

(** What the loop takes from its libraries: the instants of time
    ([datetime] objects with their order and equality), [logtime.asc2dt],
    [log_time.replace(second=0, microsecond=0)], and [APACHE_REGEX.match],
    which gives the groups [ip] and [datetime] of a line that matches. *)
Variable datetime : Type.
Variable dt_ltb : datetime -> datetime -> bool.
Variable dt_eqb : datetime -> datetime -> bool.
Variable asc2dt : string -> result datetime.
Variable replace_second0 : datetime -> datetime.
Variable APACHE_match : string -> option (string * string).

(** The settings read before the loop: the time window and whether
    [CALC_HISTOGRAM] is set. *)
Variable start_window end_window : datetime.
Variable calc_time_hist : bool.

(** The variables the loop updates. *)
Record LogState : Type := mk_LogState {
  total_requests : Z;
  ip_counter : Counter string;
  country_counter : Counter string;
  unknown_counter : Counter string;
  time_hist : Counter datetime;
  body : list string;
  cidr_mapper : CountryCidrMapper
}.

(** Lines 202-205, with the mapper built before. *)
Definition log_start (mapper : CountryCidrMapper) : LogState :=
  mk_LogState 0 [] [] [] [] [] mapper.

(** The body of [for line in f] (lines 213-236). *)
Definition process_line (st : LogState) (line : string) : result LogState :=
  match APACHE_match line with
  | Some (ip, datetime_text) =>
      (log_time <- asc2dt datetime_text ;;
       if dt_ltb log_time start_window || dt_ltb end_window log_time then Ok st
       else
         let total := total_requests st + 1 in
         let ipc := counter_incr String.eqb ip (ip_counter st) in
         let (answer, mapper) := get_country_from_ip (cidr_mapper st) ip in
         country_code <- answer ;;
         let cc := counter_incr String.eqb country_code (country_counter st) in
         let uc := if String.eqb country_code "UNKNOWN"
                   then counter_incr String.eqb ip (unknown_counter st)
                   else unknown_counter st in
         let th := if calc_time_hist
                   then counter_incr dt_eqb (replace_second0 log_time) (time_hist st)
                   else time_hist st in
         Ok (mk_LogState total ipc cc uc th (body st) mapper))%result
  | None =>
      Ok (mk_LogState (total_requests st) (ip_counter st) (country_counter st)
            (unknown_counter st) (time_hist st)
            (body st ++ [("Unmatched log line: " ++ str.strip line)%string])
            (cidr_mapper st))
  end.

(** The loops over the files and their lines, the lines taken in the order
    read. *)
Fixpoint process_lines (st : LogState) (lines : list string) : result LogState :=
  match lines with
  | [] => Ok st
  | line :: rest =>
      (st' <- process_line st line ;; process_lines st' rest)%result
  end.

(** Whether a line is counted: it matches, its time parses and lies in the
    window. *)
Definition counted (line : string) : bool :=
  match APACHE_match line with
  | Some (_, datetime_text) =>
      match asc2dt datetime_text with
      | Ok log_time =>
          negb (dt_ltb log_time start_window || dt_ltb end_window log_time)
      | Raise _ => false
      end
  | None => false
  end.

(** The text written for a line that does not match. *)
Definition unmatched_message (line : string) : string :=
  ("Unmatched log line: " ++ str.strip line)%string.

Definition unmatched (line : string) : bool :=
  match APACHE_match line with Some _ => false | None => true end.

End LogLoop.

Arguments total_requests {datetime} _.
Arguments ip_counter {datetime} _.
Arguments country_counter {datetime} _.
Arguments unknown_counter {datetime} _.
Arguments time_hist {datetime} _.
Arguments body {datetime} _.
Arguments cidr_mapper {datetime} _.

(** The characters of a dotted quad, and those of a CIDR text. *)
Definition digit_or_dot (c : ascii) : bool :=
  str.is_ascii_digit c || Ascii.eqb c ".".

Definition cidr_char (c : ascii) : bool :=
  str.is_ascii_digit c || Ascii.eqb c "." || Ascii.eqb c "/".

(** The [Code] of a row, lower-cased, if the row has one. *)
Definition row_codes (str_lower : string -> string) (r : row) : list string :=
  match row_get r "Code" with
  | Some (Some v) => [str_lower v]
  | _ => []
  end.

(** Whether the mapper answers ["UNKNOWN"] for an address text. *)
Definition resolves_unknown (mapper : CountryCidrMapper) (ip : string) : bool :=
  match resolve mapper ip with
  | Ok c => String.eqb c "UNKNOWN"
  | Raise _ => false
  end.

(** A toy log format for the examples: two fields separated by a blank,
    the address and the time in seconds. *)
Definition toy_match (line : string) : option (string * string) :=
  match str.split " " line with
  | [ip; t] => Some (ip, t)
  | _ => None
  end.

Definition toy_asc2dt (t : string) : result Z :=
  if str.isascii_isdigit t then Ok (int10 t) else Raise ValueError.

Definition toy_lines : list string :=
  ["1.0.0.5 100"; "3.0.0.1 120"; "no match here"; "3.0.0.1 130";
   "1.0.0.5 999"; "bogus 150"].

Definition toy_run (lines : list string) : result (LogState Z) :=
  process_lines Z Z.ltb Z.eqb toy_asc2dt (fun t => 60 * (t / 60)) toy_match
    100 200 true (log_start Z scenario_mapper) lines.

Definition toy_state : LogState Z :=
  Eval vm_compute in
    match toy_run toy_lines with
    | Ok st => st
    | Raise _ => log_start Z scenario_mapper
    end.

(** Descending order of counts. *)
Definition ge_count {K} (x y : K * Z) : Prop := snd y <= snd x.

(** The entries one line of a zone file adds, and those of a listed code:
    the lines of its member, in order. *)
Definition line_entries (str_upper : string -> string) (code c : string)
  : list entry :=
  add_cidr str_upper code [] c.

Definition code_entries (str_upper : string -> string)
  (self : CountryCidrMapper) (code : string) : list entry :=
  match download_ip_blocks self code with
  | Ok cidrs => flat_map (line_entries str_upper code) cidrs
  | Raise _ => []
  end.

(* ================================================================== *)
(** ** Facts about results, indexing and [bisect_right]                *)
(* ================================================================== *)

(** Case analysis on the condition of the first [if] in the goal. *)
Ltac case_if :=
  match goal with
  | |- context [if ?b then _ else _] => destruct b eqn:?
  end.

Lemma Ok_inj {A} (a b : A) : Ok a = Ok b -> a = b.
Proof. congruence. Qed.

Lemma rbind_Ok {A B} (r : result A) (k : A -> result B) b :
  rbind r k = Ok b -> exists a, r = Ok a /\ k a = Ok b.
Proof. destruct r; simpl; intros H; [eauto | discriminate]. Qed.

Lemma rbind_Raise {A B} (r : result A) (k : A -> result B) e :
  rbind r k = Raise e -> r = Raise e \/ exists a, r = Ok a /\ k a = Raise e.
Proof. destruct r; simpl; intros H; [right; eauto | left; congruence]. Qed.

Lemma getitem_in_range {A} (a : list A) (j : Z) (d : A) :
  0 <= j < Z.of_nat (List.length a) ->
  getitem a j = Ok (nth (Z.to_nat j) a d).
Proof.
  intros Hj. unfold getitem.
  destruct (Z.ltb_spec j 0); [lia |].
  destruct (Z.ltb_spec j 0); [lia |].
  destruct (Z.leb_spec (Z.of_nat (List.length a)) j); [lia |]. simpl.
  destruct (nth_error a (Z.to_nat j)) eqn:E.
  - f_equal. symmetry. apply nth_error_nth. assumption.
  - apply nth_error_None in E. lia.
Qed.

Lemma getitem_nth_error {A} (a : list A) (k : nat) (x : A) :
  nth_error a k = Some x -> getitem a (Z.of_nat k) = Ok x.
Proof.
  intros E.
  assert (Hk : (k < List.length a)%nat) by (apply nth_error_Some; congruence).
  rewrite (getitem_in_range a (Z.of_nat k) x) by lia.
  rewrite Nat2Z.id. f_equal. apply nth_error_nth. assumption.
Qed.

Lemma half_between (lo hi : nat) :
  (lo < hi)%nat -> (lo <= (lo + hi) / 2 < hi)%nat.
Proof.
  intros H.
  pose proof (Nat.div_mod_eq (lo + hi) 2).
  pose proof (Nat.mod_upper_bound (lo + hi) 2 ltac:(lia)). lia.
Qed.

(** The search loop returns, and its answer lies between the bounds. *)
Lemma bisect_loop_total (a : list Z) (x : Z) (lo hi : nat) :
  (lo <= hi <= List.length a)%nat ->
  exists i, bisect.loop a x lo hi = Ok i /\ (lo <= i <= hi)%nat.
Proof.
  funelim (bisect.loop a x lo hi); intros Hb.
  - exists lo. split; [reflexivity | lia].
  - pose proof (half_between lo hi ltac:(assumption)).
    rewrite (getitem_in_range a _ 0) in Heq by lia. discriminate.
  - pose proof (half_between lo hi ltac:(assumption)).
    destruct H as [i [Hi Hr]]; [lia |]. exists i. split; [assumption | lia].
  - pose proof (half_between lo hi ltac:(assumption)).
    destruct H as [i [Hi Hr]]; [lia |]. exists i. split; [assumption | lia].
Qed.

Lemma bisect_right_total (a : list Z) (x : Z) :
  exists i, bisect.bisect_right a x = Ok i /\ (i <= List.length a)%nat.
Proof.
  destruct (bisect_loop_total a x 0 (List.length a)) as [i [Hi Hb]]; [lia |].
  exists i. split; [exact Hi | lia].
Qed.

(** On an ascending list the loop keeps the invariant "everything left of
    [lo] is [<= x], everything from [hi] on is [> x]". *)
Lemma bisect_loop_spec (a : list Z) (x : Z) (lo hi : nat) :
  ascending a ->
  (lo <= hi <= List.length a)%nat ->
  (forall k, (k < lo)%nat -> nth k a 0 <= x) ->
  (forall k, (hi <= k < List.length a)%nat -> x < nth k a 0) ->
  forall i, bisect.loop a x lo hi = Ok i ->
  (forall k, (k < i)%nat -> nth k a 0 <= x) /\
  (forall k, (i <= k < List.length a)%nat -> x < nth k a 0).
Proof.
  funelim (bisect.loop a x lo hi); intros Hasc Hb Hlo Hhi i Hi.
  - injection Hi as <-. split; [assumption |].
    intros k Hk. apply Hhi. lia.
  - discriminate.
  - pose proof (half_between lo hi ltac:(assumption)) as Hm.
    pose proof (getitem_in_range a (Z.of_nat ((lo + hi) / 2)) 0 ltac:(lia)) as G.
    rewrite Nat2Z.id in G.
    assert (Hv : nth ((lo + hi) / 2) a 0 = v) by congruence.
    apply H; try assumption; [lia |].
    intros k Hk. specialize (Hasc ((lo + hi) / 2)%nat k ltac:(lia)). lia.
  - pose proof (half_between lo hi ltac:(assumption)) as Hm.
    pose proof (getitem_in_range a (Z.of_nat ((lo + hi) / 2)) 0 ltac:(lia)) as G.
    rewrite Nat2Z.id in G.
    assert (Hv : nth ((lo + hi) / 2) a 0 = v) by congruence.
    apply H; try assumption; [lia |].
    intros k Hk. specialize (Hasc k ((lo + hi) / 2)%nat ltac:(lia)). lia.
Qed.

Lemma bisect_right_spec (a : list Z) (x : Z) (i : nat) :
  ascending a ->
  bisect.bisect_right a x = Ok i ->
  (i <= List.length a)%nat /\
  (forall k, (k < i)%nat -> nth k a 0 <= x) /\
  (forall k, (i <= k < List.length a)%nat -> x < nth k a 0).
Proof.
  intros Hasc Hi. split.
  - destruct (bisect_right_total a x) as [i' [Hi' Hb]]. congruence.
  - apply (bisect_loop_spec a x 0 (List.length a)); try assumption; lia.
Qed.

(* ================================================================== *)
(** ** Netmasks: the mask test is an interval test                     *)
(* ================================================================== *)

Section Netmask.

Import ipaddress.

Variable p : Z.
Hypothesis p_range : 0 <= p <= 32.

Lemma ALL_ONES_ones : ALL_ONES = Z.ones 32.
Proof. reflexivity. Qed.

Lemma shiftr_ALL_ONES : Z.shiftr ALL_ONES p = Z.ones (32 - p).
Proof.
  rewrite ALL_ONES_ones. apply Z.bits_inj'. intros i Hi.
  rewrite Z.shiftr_spec by assumption.
  rewrite !Z.testbit_ones_nonneg by lia.
  destruct (Z.ltb_spec (i + p) 32), (Z.ltb_spec i (32 - p)); auto; lia.
Qed.

Lemma testbit_below_pow2 (x i : Z) :
  0 <= x < 2 ^ 32 -> 32 <= i -> Z.testbit x i = false.
Proof.
  intros Hx Hi.
  destruct (Z.eq_dec x 0) as [-> | Hnz]; [apply Z.testbit_0_l |].
  apply Z.bits_above_log2; [lia |].
  assert (Z.log2 x < 32) by (apply Z.log2_lt_pow2; lia). lia.
Qed.

(** Masking with the netmask of prefix length [p] clears the low
    [32 - p] bits. *)
Lemma land_netmask (x : Z) :
  0 <= x < 2 ^ 32 ->
  Z.land x (ip_int_from_prefix p) = 2 ^ (32 - p) * (x / 2 ^ (32 - p)).
Proof.
  intros Hx.
  rewrite Z.mul_comm, <- Z.shiftr_div_pow2, <- Z.shiftl_mul_pow2 by lia.
  unfold ip_int_from_prefix. rewrite shiftr_ALL_ONES, ALL_ONES_ones.
  apply Z.bits_inj'. intros i Hi.
  rewrite Z.land_spec, Z.lxor_spec, !Z.testbit_ones_nonneg by lia.
  destruct (Z.ltb_spec i (32 - p)) as [Hlow | Hhigh].
  - rewrite Z.shiftl_spec_low by assumption.
    destruct (Z.ltb_spec i 32); [| lia]. simpl. apply andb_false_r.
  - rewrite Z.shiftl_spec_high by lia. rewrite Z.shiftr_spec by lia.
    replace (i - (32 - p) + (32 - p)) with i by lia.
    destruct (Z.ltb_spec i 32) as [Hin | Hout]; simpl.
    + apply andb_true_r.
    + rewrite (testbit_below_pow2 x i) by lia. reflexivity.
Qed.

Lemma ip_int_from_prefix_range :
  0 <= ip_int_from_prefix p < 2 ^ 32.
Proof.
  assert (E : ip_int_from_prefix p = Z.land ALL_ONES (ip_int_from_prefix p)).
  { unfold ip_int_from_prefix. rewrite shiftr_ALL_ONES, ALL_ONES_ones.
    apply Z.bits_inj'. intros i Hi.
    rewrite Z.land_spec, Z.lxor_spec, !Z.testbit_ones_nonneg by lia.
    destruct (Z.ltb_spec i 32), (Z.ltb_spec i (32 - p)); simpl; auto; lia. }
  rewrite E, land_netmask by (unfold ALL_ONES; lia).
  assert (0 < 2 ^ (32 - p)) by (apply Z.pow_pos_nonneg; lia).
  pose proof (Z.mul_div_le ALL_ONES (2 ^ (32 - p)) ltac:(lia)).
  assert (0 <= ALL_ONES / 2 ^ (32 - p)) by (apply Z.div_pos; unfold ALL_ONES; lia).
  unfold ALL_ONES in *. nia.
Qed.

(** The mask test [ip & netmask == network_address] holds exactly on the
    block of [2^(32-p)] addresses that starts at a canonical network
    address. *)
Lemma mask_test_interval (net ip : Z) :
  0 <= net < 2 ^ 32 ->
  0 <= ip < 2 ^ 32 ->
  Z.land net (ip_int_from_prefix p) = net ->
  Z.land ip (ip_int_from_prefix p) = net <->
  net <= ip <= net + (2 ^ (32 - p) - 1).
Proof.
  intros Hnet Hip Hcanon.
  rewrite land_netmask in Hcanon by assumption.
  rewrite land_netmask by assumption.
  assert (Hpos : 0 < 2 ^ (32 - p)) by (apply Z.pow_pos_nonneg; lia).
  pose proof (Z.div_mod ip (2 ^ (32 - p)) ltac:(lia)) as Hdm.
  pose proof (Z.mod_pos_bound ip (2 ^ (32 - p)) Hpos) as Hmod.
  set (H := 2 ^ (32 - p)) in *.
  set (qi := ip / H) in *. set (qn := net / H) in *.
  split.
  - intros E. lia.
  - intros [Hlo Hhi]. assert (qi = qn) by nia. subst qi. lia.
Qed.

Lemma hostmask_ones (nm : Z) :
  nm = ip_int_from_prefix p -> Z.lxor nm ALL_ONES = Z.ones (32 - p).
Proof.
  intros ->. unfold ip_int_from_prefix.
  rewrite Z.lxor_comm, <- Z.lxor_assoc, Z.lxor_nilpotent, Z.lxor_0_l.
  apply shiftr_ALL_ONES.
Qed.

(** On a canonical network address, or-ing in the host mask adds it. *)
Lemma lor_hostmask (net : Z) :
  0 <= net < 2 ^ 32 ->
  Z.land net (ip_int_from_prefix p) = net ->
  Z.lor net (Z.ones (32 - p)) = net + (2 ^ (32 - p) - 1).
Proof.
  intros Hnet Hcanon.
  rewrite land_netmask in Hcanon by assumption.
  assert (Hpos : 0 < 2 ^ (32 - p)) by (apply Z.pow_pos_nonneg; lia).
  assert (Hdisj : Z.land net (Z.ones (32 - p)) = 0).
  { rewrite Z.land_ones by lia. rewrite <- Hcanon.
    rewrite Z.mul_comm. apply Z.mod_mul. lia. }
  rewrite <- Z.lxor_lor by assumption.
  rewrite <- Z.add_nocarry_lxor by assumption.
  rewrite Z.ones_equiv. lia.
Qed.

End Netmask.

(* ================================================================== *)
(** ** What the address and network parsers return                     *)
(* ================================================================== *)

Section Parsers.

Import ipaddress.

Lemma int10_acc_nonneg (s : string) (acc : Z) :
  str.forallb str.is_ascii_digit s = true -> 0 <= acc -> 0 <= int10_acc acc s.
Proof.
  revert acc. induction s as [| c s IH]; cbn [int10_acc str.forallb];
    intros acc Hd Hacc; [assumption |].
  apply andb_prop in Hd. destruct Hd as [Hc Hs].
  apply IH; [assumption |].
  unfold str.is_ascii_digit in Hc. apply andb_prop in Hc.
  destruct Hc as [Hc _]. apply Z.leb_le in Hc. lia.
Qed.

Lemma parse_octet_range (s : string) (v : Z) :
  parse_octet s = Ok v -> 0 <= v <= 255.
Proof.
  unfold parse_octet.
  destruct (str.is_empty s); [discriminate |].
  destruct (str.isascii_isdigit s) eqn:Hd; simpl; [| discriminate].
  destruct (3 <? Z.of_nat (String.length s)); [discriminate |].
  case_if; [discriminate |].
  destruct (Z.ltb_spec 255 (int10 s)); [discriminate |].
  intros E. injection E as <-. split; [| lia].
  unfold str.isascii_isdigit in Hd. apply andb_prop in Hd.
  apply int10_acc_nonneg; [tauto | lia].
Qed.

Lemma mapM_Ok {A B} (f : A -> result B) (xs : list A) (ys : list B) :
  mapM f xs = Ok ys -> Forall2 (fun x y => f x = Ok y) xs ys.
Proof.
  revert ys. induction xs as [| x xs IH]; simpl; intros ys E.
  - injection E as <-. constructor.
  - destruct (f x) eqn:Ex; [| discriminate].
    destruct (mapM f xs) eqn:Exs; [| discriminate].
    injection E as <-. constructor; auto.
Qed.

Lemma ip4_int_from_string_range (s : string) (ip : Z) :
  ip4_int_from_string s = Ok ip -> 0 <= ip < 2 ^ 32.
Proof.
  unfold ip4_int_from_string.
  destruct (str.is_empty s); [discriminate |].
  destruct (Nat.eqb_spec (List.length (str.split "." s)) 4) as [Hlen |]; simpl;
    [| discriminate].
  destruct (mapM parse_octet (str.split "." s)) as [bs |] eqn:Ebs; [| discriminate].
  intros E. injection E as <-.
  apply mapM_Ok in Ebs.
  destruct Ebs as [| o1 b1 ? ? H1 Ebs]; [discriminate |].
  destruct Ebs as [| o2 b2 ? ? H2 Ebs]; [discriminate |].
  destruct Ebs as [| o3 b3 ? ? H3 Ebs]; [discriminate |].
  destruct Ebs as [| o4 b4 ? ? H4 Ebs]; [discriminate |].
  destruct Ebs; [| discriminate].
  apply parse_octet_range in H1, H2, H3, H4.
  unfold from_bytes_big; cbn [fold_left].
  change (2 ^ 32) with 4294967296. lia.
Qed.

Lemma IPv4Address_range (s : string) (ip : Z) :
  IPv4Address s = Ok ip -> 0 <= ip < 2 ^ 32.
Proof.
  unfold IPv4Address. destruct (str.contains "/" s); [discriminate |].
  apply ip4_int_from_string_range.
Qed.

Lemma IPv6Address_not_V4 (s : string) (ip : Z) :
  IPv6Address s <> Ok (V4 ip).
Proof.
  unfold IPv6Address. destruct (str.contains "/" s); [discriminate |].
  destruct (split_scope_id s) as [[addr sc] |]; simpl; [| discriminate].
  destruct (ip6_int_from_string addr); simpl; discriminate.
Qed.

(** An address that [ip_address] returns as IPv4 is what [IPv4Address]
    parsed, a 32-bit value. *)
Lemma ip_address_V4 (s : string) (ip : Z) :
  ip_address s = Ok (V4 ip) -> IPv4Address s = Ok ip /\ 0 <= ip < 2 ^ 32.
Proof.
  unfold ip_address. destruct (IPv4Address s) as [ip' |] eqn:E4; simpl.
  - intros E. injection E as ->. split; [reflexivity |].
    eapply IPv4Address_range; eassumption.
  - destruct (is_Address_or_Netmask_ValueError e); [| discriminate].
    destruct (IPv6Address s) as [a |] eqn:E6; simpl.
    + intros E. injection E as ->. exfalso. eapply IPv6Address_not_V4; eassumption.
    + destruct (is_Address_or_Netmask_ValueError e0); discriminate.
Qed.

Lemma count_righthand_zero_bits_range (n : Z) :
  0 <= count_righthand_zero_bits n 32 <= 32.
Proof.
  unfold count_righthand_zero_bits, bit_length.
  destruct (n =? 0); [lia |].
  destruct (_ =? 0); [lia |].
  pose proof (Z.log2_nonneg (Z.abs (Z.land (Z.lnot n) (n - 1)))). lia.
Qed.

Lemma prefix_from_ip_int_range (n q : Z) :
  prefix_from_ip_int n = Ok q -> 0 <= q <= 32.
Proof.
  unfold prefix_from_ip_int, max_prefixlen.
  destruct (negb _); [discriminate |].
  intros E. apply Ok_inj in E. subst q.
  pose proof (count_righthand_zero_bits_range n). lia.
Qed.

Lemma make_netmask_Ok (arg : option string) (nm q : Z) :
  make_netmask arg = Ok (nm, q) -> 0 <= q <= 32 /\ nm = ip_int_from_prefix q.
Proof.
  unfold make_netmask. intros E. apply rbind_Ok in E.
  destruct E as [q' [Eq E]]. injection E as <- <-. split; [| reflexivity].
  destruct arg as [mask |].
  - unfold try_except in Eq.
    destruct (prefix_from_prefix_string mask) as [q0 | e] eqn:Eps.
    + injection Eq as <-. unfold prefix_from_prefix_string, max_prefixlen in Eps.
      destruct (negb (str.isascii_isdigit mask)); [discriminate |].
      destruct (Z.leb_spec 0 (int10 mask)), (Z.leb_spec (int10 mask) 32);
        simpl in Eps; try discriminate.
      injection Eps as <-. lia.
    + destruct e; try discriminate.
      unfold prefix_from_ip_string in Eq.
      destruct (ip4_int_from_string mask) as [n |]; [| discriminate].
      destruct (prefix_from_ip_int n) eqn:E1.
      * injection Eq as <-. eapply prefix_from_ip_int_range; eassumption.
      * destruct (prefix_from_ip_int (Z.lxor n ALL_ONES)) eqn:E2; [| discriminate].
        injection Eq as <-. eapply prefix_from_ip_int_range; eassumption.
  - injection Eq as <-. unfold max_prefixlen. lia.
Qed.

Lemma IPv4Network_wf (cidr : string) (strict : bool) (n : network) :
  IPv4Network cidr strict = Ok n -> wf_network n.
Proof.
  unfold IPv4Network. intros E.
  apply rbind_Ok in E. destruct E as [[addr mask] [_ E]].
  apply rbind_Ok in E. destruct E as [packed [Hpacked E]].
  apply rbind_Ok in E. destruct E as [[nm q] [Hmask E]].
  apply IPv4Address_range in Hpacked.
  apply make_netmask_Ok in Hmask. destruct Hmask as [Hq ->].
  destruct (Z.eqb_spec (Z.land packed (ip_int_from_prefix q)) packed) as [Hc | Hc];
    simpl in E.
  - injection E as <-. unfold wf_network; simpl. auto.
  - destruct strict; [discriminate |]. injection E as <-.
    unfold wf_network; simpl. repeat split; try assumption; try lia.
    + rewrite land_netmask by assumption.
      assert (0 < 2 ^ (32 - q)) by (apply Z.pow_pos_nonneg; lia).
      assert (0 <= packed / 2 ^ (32 - q)) by (apply Z.div_pos; lia). nia.
    + rewrite land_netmask by assumption.
      assert (0 < 2 ^ (32 - q)) by (apply Z.pow_pos_nonneg; lia).
      pose proof (Z.mul_div_le packed (2 ^ (32 - q)) ltac:(lia)). lia.
    + rewrite <- Z.land_assoc, Z.land_diag. reflexivity.
Qed.

Lemma contains_in_block (n : network) (ip : Z) :
  wf_network n -> 0 <= ip < 2 ^ 32 ->
  contains n (V4 ip) = true <-> in_block n ip.
Proof.
  intros (Hp & Hnm & Hna & Hcanon) Hip.
  unfold contains, in_block, end_address. rewrite Hnm in *.
  rewrite Z.eqb_eq. apply mask_test_interval; assumption.
Qed.

Lemma broadcast_address_end (n : network) :
  wf_network n -> broadcast_address n = end_address n.
Proof.
  intros (Hp & Hnm & Hna & Hcanon).
  unfold broadcast_address, hostmask, end_address.
  rewrite (hostmask_ones (prefixlen n)) by assumption.
  rewrite Hnm in Hcanon. apply lor_hostmask; assumption.
Qed.

End Parsers.

(** No network is parsed from the empty text. *)
Lemma IPv4Network_not_empty (s : string) (strict : bool) (n : ipaddress.network) :
  ipaddress.IPv4Network s strict = Ok n -> str.is_empty s = false.
Proof.
  destruct s; [| reflexivity]. destruct strict; vm_compute; discriminate.
Qed.

(* ================================================================== *)
(** ** The candidate loop of the resolver                              *)
(* ================================================================== *)

Lemma candidates_0 : candidates 0 = [].
Proof. reflexivity. Qed.

Lemma candidates_1 : candidates 1 = [0].
Proof. reflexivity. Qed.

Lemma candidates_SS (k : nat) :
  candidates (S (S k)) = [Z.of_nat k; Z.of_nat (S k)].
Proof.
  unfold candidates, range.
  replace (Z.max 0 (Z.of_nat (S (S k)) - 2)) with (Z.of_nat k) by lia.
  replace (Z.to_nat (Z.of_nat (S (S k)) - Z.of_nat k)) with 2%nat by lia.
  cbn [seq map]. repeat f_equal; lia.
Qed.

(** Every position the loop visits exists in a list of at least [i]
    elements, and none is negative. *)
Lemma candidates_in_range (i n : nat) :
  (i <= n)%nat -> Forall (fun j => 0 <= j < Z.of_nat n) (candidates i).
Proof.
  intros Hi. destruct i as [| [| k]].
  - rewrite candidates_0. constructor.
  - rewrite candidates_1. repeat constructor; lia.
  - rewrite candidates_SS. repeat constructor; lia.
Qed.

Lemma scan_cons (self : CountryCidrMapper) (a : ipaddress.address)
  (k : nat) (rest : list Z) (e : entry) :
  nth_error (NETWORK_MAP self) k = Some e ->
  scan self a (Z.of_nat k :: rest) =
  if ipaddress.contains (network_of e) a then Ok (Some (country_of e))
  else scan self a rest.
Proof.
  intros E. cbn [scan]. rewrite (getitem_nth_error _ _ _ E).
  destruct e as [[s n] c]. reflexivity.
Qed.

(** What the loop computes: it never fails on a window that ends inside the
    list, and it returns the country of the lowest visited position whose
    network contains the address. *)
Lemma scan_candidates (self : CountryCidrMapper) (a : ipaddress.address) (i : nat) :
  (i <= List.length (NETWORK_MAP self))%nat ->
  exists r, scan self a (candidates i) = Ok r /\
    match r with
    | Some c =>
        exists j e, (i - 2 <= j < i)%nat /\
          nth_error (NETWORK_MAP self) j = Some e /\
          ipaddress.contains (network_of e) a = true /\
          c = country_of e /\
          forall j' e', (i - 2 <= j' < j)%nat ->
            nth_error (NETWORK_MAP self) j' = Some e' ->
            ipaddress.contains (network_of e') a = false
    | None =>
        forall j e, (i - 2 <= j < i)%nat ->
          nth_error (NETWORK_MAP self) j = Some e ->
          ipaddress.contains (network_of e) a = false
    end.
Proof.
  intros Hi. destruct i as [| [| k]].
  - exists None. split; [reflexivity |]. intros j e Hj. lia.
  - destruct (nth_error (NETWORK_MAP self) 0) as [e0 |] eqn:E0;
      [| apply nth_error_None in E0; lia].
    rewrite candidates_1. change 0 with (Z.of_nat 0).
    rewrite (scan_cons _ _ _ _ _ E0).
    destruct (ipaddress.contains (network_of e0) a) eqn:C0.
    + exists (Some (country_of e0)). split; [reflexivity |].
      exists 0%nat, e0. repeat split; try assumption; try lia.
      all: intros j' e' Hj'; lia.
    + exists None. split; [reflexivity |].
      intros j e Hj Ej. assert (j = 0%nat) by lia. subst j. congruence.
  - destruct (nth_error (NETWORK_MAP self) k) as [e1 |] eqn:E1;
      [| apply nth_error_None in E1; lia].
    destruct (nth_error (NETWORK_MAP self) (S k)) as [e2 |] eqn:E2;
      [| apply nth_error_None in E2; lia].
    rewrite candidates_SS.
    rewrite (scan_cons _ _ _ _ _ E1), (scan_cons _ _ _ _ _ E2).
    destruct (ipaddress.contains (network_of e1) a) eqn:C1.
    + exists (Some (country_of e1)). split; [reflexivity |].
      exists k, e1. repeat split; try assumption; try lia.
      all: intros j' e' Hj'; lia.
    + destruct (ipaddress.contains (network_of e2) a) eqn:C2.
      * exists (Some (country_of e2)). split; [reflexivity |].
        exists (S k), e2. repeat split; try assumption; try lia.
        all: intros j' e' Hj' Ej'; assert (j' = k) by lia; subst j'; congruence.
      * exists None. split; [reflexivity |].
        intros j e Hj Ej.
        assert (j = k \/ j = S k) as [-> | ->] by lia; congruence.
Qed.

(** The resolver, once the address has parsed and the search has
    returned. *)
Lemma resolve_parsed (self : CountryCidrMapper) (s : string)
  (a : ipaddress.address) (i : nat) (r : option string) :
  ipaddress.ip_address s = Ok a ->
  bisect.bisect_right (map (fun item : entry => fst (fst item)) (NETWORK_MAP self))
    (ipaddress.int a) = Ok i ->
  scan self a (candidates i) = Ok r ->
  resolve self s = Ok (match r with Some c => c | None => "UNKNOWN" end).
Proof.
  intros Ha Hi Hr. unfold resolve, get_country_from_ip. cbn [fst].
  rewrite Ha. cbn [rbind]. rewrite Hi. cbn [rbind]. rewrite Hr.
  destruct r; reflexivity.
Qed.

(** A query with a parsed address always returns, and its answer is read
    off the candidate loop. *)
Lemma resolve_parsed_total (self : CountryCidrMapper) (s : string)
  (a : ipaddress.address) :
  ipaddress.ip_address s = Ok a ->
  exists i r,
    bisect.bisect_right (map (fun item : entry => fst (fst item)) (NETWORK_MAP self))
      (ipaddress.int a) = Ok i /\
    (i <= List.length (NETWORK_MAP self))%nat /\
    scan self a (candidates i) = Ok r /\
    resolve self s = Ok (match r with Some c => c | None => "UNKNOWN" end).
Proof.
  intros Ha.
  destruct (bisect_right_total
              (map (fun item : entry => fst (fst item)) (NETWORK_MAP self))
              (ipaddress.int a)) as [i [Hi Hlen]].
  rewrite length_map in Hlen.
  destruct (scan_candidates self a i Hlen) as [r [Hr _]].
  exists i, r. repeat split; try assumption.
  eapply resolve_parsed; eassumption.
Qed.

(* ================================================================== *)
(** ** Sorting by start address                                        *)
(* ================================================================== *)

Lemma insert_by_start_perm (x : entry) (l : list entry) :
  Permutation (insert_by_start x l) (x :: l).
Proof.
  induction l as [| y l IH]; cbn [insert_by_start]; [reflexivity |].
  case_if; [reflexivity |].
  rewrite IH. apply perm_swap.
Qed.

Lemma sorted_by_start_perm (l : list entry) :
  Permutation (sorted_by_start l) l.
Proof.
  induction l as [| x l IH]; cbn [sorted_by_start fold_right]; [reflexivity |].
  rewrite insert_by_start_perm. constructor. exact IH.
Qed.

Lemma insert_by_start_sorted (x : entry) (l : list entry) :
  StronglySorted le_start l -> StronglySorted le_start (insert_by_start x l).
Proof.
  induction l as [| y l IH]; cbn [insert_by_start]; intros Hs.
  - repeat constructor.
  - inversion Hs as [| ? ? Hl Hy]; subst.
    destruct (Z.leb_spec (start_of x) (start_of y)) as [Hle | Hgt].
    + constructor; [assumption |]. constructor; [assumption |].
      eapply Forall_impl; [| exact Hy].
      intros z Hz. unfold le_start in *. lia.
    + constructor; [auto |].
      eapply Permutation_Forall; [symmetry; apply insert_by_start_perm |].
      constructor; [unfold le_start; lia | assumption].
Qed.

Lemma sorted_by_start_sorted (l : list entry) :
  StronglySorted le_start (sorted_by_start l).
Proof.
  induction l as [| x l IH]; cbn [sorted_by_start fold_right].
  - constructor.
  - apply insert_by_start_sorted. exact IH.
Qed.

Lemma sorted_by_start_In (l : list entry) (e : entry) :
  In e (sorted_by_start l) <-> In e l.
Proof.
  split; apply Permutation_in;
    [apply sorted_by_start_perm | symmetry; apply sorted_by_start_perm].
Qed.

Lemma StronglySorted_nth (l : list entry) (j k : nat) (ej ek : entry) :
  StronglySorted le_start l ->
  (j <= k)%nat -> nth_error l j = Some ej -> nth_error l k = Some ek ->
  start_of ej <= start_of ek.
Proof.
  intros Hs. revert j k. induction Hs as [| x l Hs IH Hx]; intros j k Hjk Ej Ek.
  - destruct j; discriminate.
  - destruct j as [| j], k as [| k]; cbn [nth_error] in *.
    + assert (ej = ek) by congruence. subst. lia.
    + injection Ej as <-. apply nth_error_In in Ek.
      rewrite Forall_forall in Hx. apply Hx. assumption.
    + lia.
    + apply (IH j k); [lia | assumption | assumption].
Qed.

Lemma nth_map_start (l : list entry) (k : nat) (e : entry) :
  nth_error l k = Some e ->
  nth k (map (fun item : entry => fst (fst item)) l) 0 = start_of e.
Proof.
  intros E. apply nth_error_nth. rewrite nth_error_map, E. reflexivity.
Qed.

Lemma sorted_ascending (l : list entry) :
  StronglySorted le_start l ->
  ascending (map (fun item : entry => fst (fst item)) l).
Proof.
  intros Hs j k Hjk. rewrite length_map in Hjk.
  destruct (nth_error l j) as [ej |] eqn:Ej; [| apply nth_error_None in Ej; lia].
  destruct (nth_error l k) as [ek |] eqn:Ek; [| apply nth_error_None in Ek; lia].
  rewrite (nth_map_start _ _ _ Ej), (nth_map_start _ _ _ Ek).
  apply (StronglySorted_nth l j k); try assumption. lia.
Qed.

(* ================================================================== *)
(** ** What the build produces                                         *)
(* ================================================================== *)

Lemma mbind_Ok {A B} (m : M A) (k : A -> M B) (w w' : World) (b : B) :
  mbind m k w = (Ok b, w') ->
  exists a w1, m w = (Ok a, w1) /\ k a w1 = (Ok b, w').
Proof.
  unfold mbind. destruct (m w) as [[a | e] w1]; intros E; [eauto | discriminate].
Qed.

Section Build.

Variable str_upper : string -> string.
Variable TarFile_open : string -> result TarFile.

Lemma add_cidr_cases (code : string) (acc : list entry) (c : string) :
  add_cidr str_upper code acc c = acc \/
  exists n, ipaddress.IPv4Network (str.strip c) false = Ok n /\
    add_cidr str_upper code acc c =
    acc ++ [(ipaddress.network_address n, n, str_upper code)].
Proof.
  unfold add_cidr. destruct (str.is_empty (str.strip c)); [left; reflexivity |].
  destruct (ipaddress.IPv4Network (str.strip c) false) as [n |] eqn:E;
    [right; eauto | left; reflexivity].
Qed.

(** The entries one country adds: well-formed and labelled with its
    upper-cased code. *)
Lemma fold_add_cidr (code : string) (cidrs : list string) (acc : list entry) :
  exists new, fold_left (add_cidr str_upper code) cidrs acc = acc ++ new /\
    Forall (fun e => entry_ok e /\ country_of e = str_upper code) new.
Proof.
  revert acc. induction cidrs as [| c cidrs IH]; intros acc; cbn [fold_left].
  - exists []. rewrite app_nil_r. split; [reflexivity | constructor].
  - destruct (add_cidr_cases code acc c) as [-> | [n [Hn ->]]]; [apply IH |].
    destruct (IH (acc ++ [(ipaddress.network_address n, n, str_upper code)]))
      as [new [-> Hnew]].
    exists ((ipaddress.network_address n, n, str_upper code) :: new).
    split; [rewrite <- app_assoc; reflexivity |].
    constructor; [| assumption].
    split; [| reflexivity]. split; [| reflexivity].
    eapply IPv4Network_wf. exact Hn.
Qed.

Lemma load_codes_spec (self : CountryCidrMapper) (codes : list string)
  (acc m : list entry) :
  load_codes str_upper self codes acc = Ok m ->
  exists new, m = acc ++ new /\
    Forall (fun e => entry_ok e /\ from_listed str_upper self codes e) new.
Proof.
  revert acc. induction codes as [| code codes IH]; intros acc; cbn [load_codes].
  - intros E. injection E as <-. exists []. rewrite app_nil_r.
    split; [reflexivity | constructor].
  - intros E. apply rbind_Ok in E. destruct E as [cidrs [Hd E]].
    assert (Hweak : forall e, from_listed str_upper self codes e ->
                              from_listed str_upper self (code :: codes) e).
    { intros e (c & cs & Hin & H1 & H2 & H3). exists c, cs.
      repeat split; try assumption. right. assumption. }
    destruct cidrs as [| c0 cidrs'].
    + destruct (IH _ E) as [new [-> Hnew]]. exists new. split; [reflexivity |].
      eapply Forall_impl; [| exact Hnew]. intros e [H1 H2]. auto.
    + destruct (fold_add_cidr code (c0 :: cidrs') acc) as [new1 [Hf Hnew1]].
      rewrite Hf in E. destruct (IH _ E) as [new2 [-> Hnew2]].
      exists (new1 ++ new2). split; [rewrite app_assoc; reflexivity |].
      apply Forall_app. split.
      * eapply Forall_impl; [| exact Hnew1]. intros e [H1 H2]. split; [assumption |].
        exists code, (c0 :: cidrs'). repeat split; try assumption;
          [left; reflexivity | discriminate].
      * eapply Forall_impl; [| exact Hnew2]. intros e [H1 H2]. auto.
Qed.

(** The steps of a build that succeeded. *)
Lemma init_Ok (codes : list string) (w w' : World) (self : CountryCidrMapper) :
  CountryCidrMapper_init str_upper TarFile_open codes w = (Ok self, w') ->
  exists response zones all_networks,
    with_retry (fetch all_zones_url) w = (Ok response, w') /\
    TarFile_open (content response) = Ok zones /\
    load_codes str_upper (mk_mapper [] (Some zones)) codes [] = Ok all_networks /\
    self = mk_mapper (sorted_by_start all_networks) (Some zones).
Proof.
  unfold CountryCidrMapper_init, load_country_data. intros E.
  apply mbind_Ok in E. destruct E as (response & w1 & Hr & E).
  apply mbind_Ok in E. destruct E as (zones & w2 & Hz & E).
  apply mbind_Ok in E. destruct E as (nets & w3 & Hn & E).
  unfold lift in Hz, Hn. unfold ret in E. cbn in Hn.
  injection Hz as Hz <-. injection Hn as Hn <-. injection E as <- <-.
  exists response, zones, nets. auto.
Qed.

Lemma init_built (codes : list string) (w w' : World) (self : CountryCidrMapper) :
  CountryCidrMapper_init str_upper TarFile_open codes w = (Ok self, w') ->
  built_index (NETWORK_MAP self).
Proof.
  intros E. apply init_Ok in E.
  destruct E as (response & zones & nets & _ & _ & Hl & ->). cbn [NETWORK_MAP].
  split; [apply sorted_by_start_sorted |].
  apply load_codes_spec in Hl. destruct Hl as [new [-> Hnew]]. cbn [app] in *.
  eapply Permutation_Forall; [symmetry; apply sorted_by_start_perm |].
  eapply Forall_impl; [| exact Hnew]. intros e [H _]. exact H.
Qed.

End Build.

(* ================================================================== *)
(** ** The scenarios, built                                            *)
(* ================================================================== *)

Lemma scenario_build :
  build_from scenario_tar scenario_codes = (Ok scenario_mapper, after_download quiet_world).
Proof. vm_compute. reflexivity. Qed.

Lemma nested_build :
  build_from nested_tar nested_codes = (Ok nested_mapper, after_download quiet_world).
Proof. vm_compute. reflexivity. Qed.

Lemma overlap_build :
  build_from overlap_tar overlap_codes = (Ok overlap_mapper, after_download quiet_world).
Proof. vm_compute. reflexivity. Qed.

(** The four queries of the specification's scenario. *)
Example scenario_answers :
  resolve scenario_mapper "1.0.0.5" = Ok "US" /\
  resolve scenario_mapper "2.0.0.255" = Ok "CA" /\
  resolve scenario_mapper "3.0.0.1" = Ok "UNKNOWN" /\
  resolve scenario_mapper "1.0.1.1" = Ok "UNKNOWN".
Proof. repeat split; vm_compute; reflexivity. Qed.

(** A country list that downloads at the first attempt: rows without a
    [Code] field are skipped and the codes are lower-cased. *)
Example country_codes_read :
  get_iso_country_codes str.ascii_lower (fun _ => sample_reader) quiet_world
  = (Ok ["us"; "ca"], requested quiet_world [country_list_url]).
Proof. vm_compute. reflexivity. Qed.

(* ================================================================== *)
(** ** C1: an address inside exactly one loaded range                  *)
(* ================================================================== *)

Lemma built_entry_ok (m : list entry) (k : nat) (e : entry) :
  built_index m -> nth_error m k = Some e -> entry_ok e.
Proof.
  intros [_ Hok] E. rewrite Forall_forall in Hok.
  apply Hok. eapply nth_error_In. exact E.
Qed.

(** The resolver on a sorted index of well-formed entries: an address that
    lies in the block at position [k] and in no other is attributed to that
    block, provided at most one other entry starts between that block's
    start and the address. *)
Lemma resolve_unique_block (self : CountryCidrMapper) (s : string) (ip : Z)
  (k : nat) (e : entry) :
  built_index (NETWORK_MAP self) ->
  ipaddress.ip_address s = Ok (ipaddress.V4 ip) ->
  nth_error (NETWORK_MAP self) k = Some e ->
  in_block (network_of e) ip ->
  (forall k' e', nth_error (NETWORK_MAP self) k' = Some e' ->
                 in_block (network_of e') ip -> k' = k) ->
  (forall k1 k2 e1 e2, k1 <> k -> k2 <> k ->
     nth_error (NETWORK_MAP self) k1 = Some e1 ->
     nth_error (NETWORK_MAP self) k2 = Some e2 ->
     start_of e <= start_of e1 <= ip ->
     start_of e <= start_of e2 <= ip -> k1 = k2) ->
  resolve self s = Ok (country_of e).
Proof.
  intros Hbuilt Hs Ek Hin Huniq Hfew.
  destruct (ip_address_V4 _ _ Hs) as [_ Hip].
  destruct (resolve_parsed_total self s _ Hs) as (i & r & Hi & Hlen & Hr & ->).
  pose proof Hbuilt as [Hsorted _].
  destruct (bisect_right_spec _ _ _ (sorted_ascending _ Hsorted) Hi)
    as (_ & Hleft & Hright).
  cbn [ipaddress.int] in Hleft, Hright. rewrite length_map in Hright.
  assert (Hklen : (k < List.length (NETWORK_MAP self))%nat)
    by (apply nth_error_Some; congruence).
  pose proof (built_entry_ok _ _ _ Hbuilt Ek) as [Hwf Hstart].
  assert (Hse : start_of e <= ip) by (rewrite Hstart; apply Hin).
  assert (Hki : (k < i)%nat).
  { destruct (Nat.lt_ge_cases k i) as [| Hge]; [assumption |].
    specialize (Hright k ltac:(lia)).
    rewrite (nth_map_start _ _ _ Ek) in Hright. lia. }
  assert (Hwin : (i - 2 <= k)%nat).
  { destruct (Nat.le_gt_cases (i - 2) k) as [| Hlt]; [assumption |]. exfalso.
    destruct (nth_error (NETWORK_MAP self) (i - 1)) as [e1 |] eqn:E1;
      [| apply nth_error_None in E1; lia].
    destruct (nth_error (NETWORK_MAP self) (i - 2)) as [e2 |] eqn:E2;
      [| apply nth_error_None in E2; lia].
    assert (i - 1 = i - 2)%nat; [| lia].
    apply (Hfew (i - 1)%nat (i - 2)%nat e1 e2); try assumption; try lia.
    - split; [apply (StronglySorted_nth (NETWORK_MAP self) k (i - 1)%nat e e1);
              try assumption; lia |].
      rewrite <- (nth_map_start _ _ _ E1). apply Hleft. lia.
    - split; [apply (StronglySorted_nth (NETWORK_MAP self) k (i - 2)%nat e e2);
              try assumption; lia |].
      rewrite <- (nth_map_start _ _ _ E2). apply Hleft. lia. }
  f_equal.
  destruct (scan_candidates self (ipaddress.V4 ip) i Hlen) as [r' [Hr' Hspec]].
  assert (r' = r) by congruence. subst r'.
  destruct r as [c |].
  - destruct Hspec as (j & ej & Hj & Ej & Cj & -> & _).
    pose proof (built_entry_ok _ _ _ Hbuilt Ej) as [Hwfj _].
    apply (contains_in_block _ _ Hwfj Hip) in Cj.
    assert (j = k) by (eapply Huniq; eassumption). subst j. congruence.
  - specialize (Hspec k e ltac:(lia) Ek).
    apply (contains_in_block _ _ Hwf Hip) in Hin. congruence.
Qed.

(** C1, as amended: for every built index and every valid IPv4 address string
    whose value lies in exactly one loaded range, the resolver returns that
    range's country code, provided at most one other loaded range starts at
    an address between that range's start and the queried address. *)
Theorem C1_resolve_unique_range
  (str_upper : string -> string) (TarFile_open : string -> result TarFile)
  (codes : list string) (w w' : World) (self : CountryCidrMapper)
  (s : string) (ip : Z) (k : nat) (e : entry) :
  CountryCidrMapper_init str_upper TarFile_open codes w = (Ok self, w') ->
  ipaddress.ip_address s = Ok (ipaddress.V4 ip) ->
  nth_error (NETWORK_MAP self) k = Some e ->
  in_block (network_of e) ip ->
  (forall k' e', nth_error (NETWORK_MAP self) k' = Some e' ->
                 in_block (network_of e') ip -> k' = k) ->
  (forall k1 k2 e1 e2, k1 <> k -> k2 <> k ->
     nth_error (NETWORK_MAP self) k1 = Some e1 ->
     nth_error (NETWORK_MAP self) k2 = Some e2 ->
     start_of e <= start_of e1 <= ip ->
     start_of e <= start_of e2 <= ip -> k1 = k2) ->
  resolve self s = Ok (country_of e).
Proof.
  intros Hinit. apply resolve_unique_block.
  eapply init_built. exact Hinit.
Qed.

(** The scenario of the specification as an instance: ["1.0.0.5"] lies in
    the US block only. *)
Lemma C1_witness :
  CountryCidrMapper_init str.ascii_upper (fun _ => Ok scenario_tar)
    scenario_codes quiet_world = (Ok scenario_mapper, after_download quiet_world) /\
  ipaddress.ip_address "1.0.0.5" = Ok (ipaddress.V4 16777221) /\
  resolve scenario_mapper "1.0.0.5" = Ok "US".
Proof.
  split; [exact scenario_build |]. split; [vm_compute; reflexivity |].
  apply (C1_resolve_unique_range str.ascii_upper (fun _ => Ok scenario_tar)
           scenario_codes quiet_world (after_download quiet_world)
           scenario_mapper "1.0.0.5" 16777221 0
           (16777216, ipaddress.mk_network 16777216 4294967040 24, "US")).
  - exact scenario_build.
  - vm_compute; reflexivity.
  - reflexivity.
  - unfold in_block, end_address; cbn; lia.
  - intros k' e' Hk' Hin'. destruct k' as [| [| k']]; cbn in Hk'.
    + reflexivity.
    + injection Hk' as <-. unfold in_block, end_address in Hin'; cbn in Hin'. lia.
    + destruct k'; discriminate.
  - intros k1 k2 e1 e2 H1 H2 E1 E2 _ _.
    destruct k1 as [| [| k1]]; [lia | | destruct k1; discriminate].
    destruct k2 as [| [| k2]]; [lia | reflexivity | destruct k2; discriminate].
Defined.

(** C1 as stated fails on nested data: ["1.3.0.1"] lies in the US block
    [1.0.0.0/8] and in no other loaded block, yet two smaller blocks start
    between the US block's start and the address, and the resolver answers
    ["UNKNOWN"]. *)
Lemma C1_counterexample :
  CountryCidrMapper_init str.ascii_upper (fun _ => Ok nested_tar)
    nested_codes quiet_world = (Ok nested_mapper, after_download quiet_world) /\
  ipaddress.ip_address "1.3.0.1" = Ok (ipaddress.V4 16973825) /\
  (exists e, nth_error (NETWORK_MAP nested_mapper) 0 = Some e /\
             country_of e = "US" /\ in_block (network_of e) 16973825) /\
  (forall k e, nth_error (NETWORK_MAP nested_mapper) k = Some e ->
               in_block (network_of e) 16973825 -> k = 0%nat) /\
  resolve nested_mapper "1.3.0.1" = Ok "UNKNOWN" /\
  resolve nested_mapper "1.3.0.1" <> Ok "US".
Proof.
  split; [exact nested_build |]. split; [vm_compute; reflexivity |].
  split; [| split; [| split]].
  - eexists. split; [reflexivity |]. split; [reflexivity |].
    unfold in_block, end_address; cbn; lia.
  - intros k e Hk Hin. destruct k as [| [| [| k]]]; cbn in Hk.
    + reflexivity.
    + injection Hk as <-. unfold in_block, end_address in Hin; cbn in Hin. lia.
    + injection Hk as <-. unfold in_block, end_address in Hin; cbn in Hin. lia.
    + destruct k; discriminate.
  - vm_compute; reflexivity.
  - vm_compute. discriminate.
Qed.

(** When the loaded blocks are pairwise disjoint, the side condition of
    [resolve_unique_block] holds: an address inside a loaded block is
    attributed to it. *)
Lemma resolve_disjoint_blocks (self : CountryCidrMapper) (s : string) (ip : Z)
  (k : nat) (e : entry) :
  built_index (NETWORK_MAP self) ->
  (forall k1 k2 e1 e2 x, k1 <> k2 ->
     nth_error (NETWORK_MAP self) k1 = Some e1 ->
     nth_error (NETWORK_MAP self) k2 = Some e2 ->
     in_block (network_of e1) x -> in_block (network_of e2) x -> False) ->
  ipaddress.ip_address s = Ok (ipaddress.V4 ip) ->
  nth_error (NETWORK_MAP self) k = Some e ->
  in_block (network_of e) ip ->
  resolve self s = Ok (country_of e).
Proof.
  intros Hbuilt Hdisj Hs Ek Hin.
  apply (resolve_unique_block self s ip k e); try assumption.
  - intros k' e' Ek' Hin'. destruct (Nat.eq_dec k' k) as [| Hne]; [assumption |].
    exfalso. eapply (Hdisj k' k); eassumption.
  - intros k1 k2 e1 e2 Hk1 _ E1 _ [Hlo Hhi] _. exfalso.
    pose proof (built_entry_ok _ _ _ Hbuilt Ek) as [_ Hstart].
    pose proof (built_entry_ok _ _ _ Hbuilt E1) as [(Hp1 & _) Hstart1].
    apply (Hdisj k1 k e1 e (start_of e1)); try assumption.
    + unfold in_block, end_address. rewrite <- Hstart1.
      assert (0 < 2 ^ (32 - ipaddress.prefixlen (network_of e1)))
        by (apply Z.pow_pos_nonneg; lia). lia.
    + unfold in_block in *. rewrite <- Hstart. lia.
Qed.

(* ================================================================== *)
(** ** C2: the order in which the two candidates are tried             *)
(* ================================================================== *)

(** C2, evaluated on the code: with [US: 1.0.0.0/8] at position 0 and
    [CA: 1.2.0.0/16] at position 1, the query ["1.2.3.4"] has insertion
    point [i = 2]; both candidates contain the address; the loop visits
    position [i - 2] first and the answer is the country at [i - 2], not
    the one at [i - 1]. *)
Theorem C2_lower_candidate_first :
  CountryCidrMapper_init str.ascii_upper (fun _ => Ok overlap_tar)
    overlap_codes quiet_world = (Ok overlap_mapper, after_download quiet_world) /\
  ipaddress.ip_address "1.2.3.4" = Ok (ipaddress.V4 16909060) /\
  bisect.bisect_right
    (map (fun item : entry => fst (fst item)) (NETWORK_MAP overlap_mapper))
    16909060 = Ok 2%nat /\
  candidates 2 = [0; 1] /\
  (exists e0 e1,
     nth_error (NETWORK_MAP overlap_mapper) 0 = Some e0 /\
     nth_error (NETWORK_MAP overlap_mapper) 1 = Some e1 /\
     country_of e0 = "US" /\ country_of e1 = "CA" /\
     in_block (network_of e0) 16909060 /\
     in_block (network_of e1) 16909060) /\
  resolve overlap_mapper "1.2.3.4" = Ok "US".
Proof.
  split; [exact overlap_build |].
  split; [vm_compute; reflexivity |].
  split; [vm_compute; reflexivity |].
  split; [reflexivity |].
  split; [| vm_compute; reflexivity].
  do 2 eexists. repeat (split; [reflexivity |]).
  split; unfold in_block, end_address; cbn; lia.
Qed.

(* ================================================================== *)
(** ** C3: strings that are not addresses                              *)
(* ================================================================== *)

Section ParseFailures.

Import ipaddress.

Lemma IPv4Address_raise (s : string) (e : exn) :
  IPv4Address s = Raise e -> e = AddressValueError.
Proof.
  unfold IPv4Address, ip4_int_from_string.
  repeat case_if; try congruence.
  destruct (mapM parse_octet (str.split "." s)); congruence.
Qed.

Lemma find_skip_raise (inner : list string) (i : nat) (sk : option nat) (e : exn) :
  find_skip inner i sk = Raise e -> e = AddressValueError.
Proof.
  revert i sk. induction inner as [| p rest IH]; intros i sk; cbn [find_skip].
  - discriminate.
  - destruct (str.is_empty p); [destruct sk; [congruence |] |]; apply IH.
Qed.

Lemma ip6_int_from_string_raise (s : string) (e : exn) :
  ip6_int_from_string s = Raise e -> e = AddressValueError.
Proof.
  unfold ip6_int_from_string.
  case_if; [congruence |]. case_if; [congruence |].
  intros E. apply rbind_Raise in E. destruct E as [E | [parts [_ E]]].
  { revert E. case_if; [| discriminate].
    destruct (IPv4Address _); congruence. }
  revert E. case_if; [congruence |].
  intros E. apply rbind_Raise in E. destruct E as [E | [sk [_ E]]].
  { eapply find_skip_raise. exact E. }
  apply rbind_Raise in E. destruct E as [E | [[[hi lo] skipped] [_ E]]].
  { destruct sk as [k |].
    - apply rbind_Raise in E. destruct E as [E | [hi [_ E]]].
      { revert E. repeat case_if; congruence. }
      apply rbind_Raise in E. destruct E as [E | [lo [_ E]]].
      { revert E. repeat case_if; congruence. }
      revert E. case_if; congruence.
    - revert E. repeat case_if; congruence. }
  revert E. cbv beta iota.
  match goal with |- context [match ?x with Ok _ => _ | Raise _ => _ end] =>
    destruct x end; congruence.
Qed.

Lemma IPv6Address_raise (s : string) (e : exn) :
  IPv6Address s = Raise e -> e = AddressValueError.
Proof.
  unfold IPv6Address. case_if; [congruence |].
  intros E. apply rbind_Raise in E. destruct E as [E | [[addr sc] [_ E]]].
  { unfold split_scope_id in E.
    destruct (str.partition "%" s) as [[a0 sep] sc0].
    revert E. repeat case_if; congruence. }
  apply rbind_Raise in E. destruct E as [E | [ip [_ E]]]; [| discriminate].
  eapply ip6_int_from_string_raise. exact E.
Qed.

(** [ip_address] raises nothing but [ValueError]. *)
Lemma ip_address_raise (s : string) (e : exn) :
  ip_address s = Raise e -> e = ValueError.
Proof.
  unfold ip_address, try_except.
  destruct (IPv4Address s) as [ip |] eqn:E4; cbn [rbind]; [discriminate |].
  apply IPv4Address_raise in E4. subst. cbn [is_Address_or_Netmask_ValueError].
  destruct (IPv6Address s) as [a |] eqn:E6; [discriminate |].
  apply IPv6Address_raise in E6. subst. cbn. congruence.
Qed.

End ParseFailures.

(** A string that [ip_address] rejects resolves to ["INVALID IP"], and the
    object is left as it was. *)
Lemma unparseable_invalid_ip (self : CountryCidrMapper) (s : string) :
  (forall a, ipaddress.ip_address s <> Ok a) ->
  get_country_from_ip self s = (Ok "INVALID IP", self).
Proof.
  intros Hno. unfold get_country_from_ip.
  destruct (ipaddress.ip_address s) as [a | e] eqn:E; [exfalso; eapply Hno; reflexivity |].
  apply ip_address_raise in E. subst. reflexivity.
Qed.

(** An IPv6 address is in no IPv4 network: the query returns ["UNKNOWN"]. *)
Lemma ipv6_unknown (self : CountryCidrMapper) (s : string) (ip : Z)
  (sc : option string) :
  ipaddress.ip_address s = Ok (ipaddress.V6 ip sc) ->
  resolve self s = Ok "UNKNOWN".
Proof.
  intros Hs.
  destruct (resolve_parsed_total self s _ Hs) as (i & r & Hi & Hlen & Hr & ->).
  destruct (scan_candidates self (ipaddress.V6 ip sc) i Hlen) as [r' [Hr' Hspec]].
  assert (r' = r) by congruence. subst r'.
  destruct r as [c |]; [exfalso | reflexivity].
  destruct Hspec as (j & ej & _ & _ & Cj & _). discriminate.
Qed.

(** C3, as amended: every string that parses neither as an IPv4 nor as an
    IPv6 address resolves to ["INVALID IP"], without raising; a well-formed
    IPv6 literal is a valid address for the parser and resolves to
    ["UNKNOWN"]. *)
Theorem C3_unparseable_invalid_ip (self : CountryCidrMapper) (s : string) :
  ((forall a, ipaddress.ip_address s <> Ok a) ->
   resolve self s = Ok "INVALID IP") /\
  (forall ip sc, ipaddress.ip_address s = Ok (ipaddress.V6 ip sc) ->
   resolve self s = Ok "UNKNOWN").
Proof.
  split.
  - intros Hno. unfold resolve. rewrite unparseable_invalid_ip by assumption.
    reflexivity.
  - intros ip sc. apply ipv6_unknown.
Qed.

(** Instances: ["not-an-ip"] and ["1.2.3.4.5"] are rejected by the parser;
    ["2001:db8::1"] is an IPv6 address. *)
Lemma C3_witness :
  resolve scenario_mapper "not-an-ip" = Ok "INVALID IP" /\
  resolve scenario_mapper "1.2.3.4.5" = Ok "INVALID IP" /\
  resolve scenario_mapper "2001:db8::1" = Ok "UNKNOWN".
Proof.
  split; [| split].
  - apply (proj1 (C3_unparseable_invalid_ip scenario_mapper "not-an-ip")).
    intros a H. vm_compute in H. discriminate H.
  - apply (proj1 (C3_unparseable_invalid_ip scenario_mapper "1.2.3.4.5")).
    intros a H. vm_compute in H. discriminate H.
  - apply (proj2 (C3_unparseable_invalid_ip scenario_mapper "2001:db8::1")
             42540766411282592856903984951653826561 None).
    vm_compute. reflexivity.
Defined.

(** C3 as stated fails on IPv6 literals: ["::1"] is not an IPv4 address,
    and the resolver answers ["UNKNOWN"], not ["INVALID IP"]. *)
Lemma C3_counterexample :
  ipaddress.IPv4Address "::1" = Raise AddressValueError /\
  ipaddress.ip_address "::1" = Ok (ipaddress.V6 1 None) /\
  resolve scenario_mapper "::1" = Ok "UNKNOWN" /\
  resolve scenario_mapper "::1" <> Ok "INVALID IP".
Proof.
  repeat split; try (vm_compute; reflexivity).
  vm_compute. discriminate.
Qed.

(* ================================================================== *)
(** ** C4: an address outside every loaded range                       *)
(* ================================================================== *)

(** C4: for every valid IPv4 address string whose value lies outside every
    range of a built index, the resolver returns ["UNKNOWN"]. *)
Theorem C4_outside_every_range_unknown
  (str_upper : string -> string) (TarFile_open : string -> result TarFile)
  (codes : list string) (w w' : World) (self : CountryCidrMapper)
  (s : string) (ip : Z) :
  CountryCidrMapper_init str_upper TarFile_open codes w = (Ok self, w') ->
  ipaddress.ip_address s = Ok (ipaddress.V4 ip) ->
  (forall e, In e (NETWORK_MAP self) -> ~ in_block (network_of e) ip) ->
  resolve self s = Ok "UNKNOWN".
Proof.
  intros Hinit Hs Hout.
  pose proof (init_built _ _ _ _ _ _ Hinit) as Hbuilt.
  destruct (ip_address_V4 _ _ Hs) as [_ Hip].
  destruct (resolve_parsed_total self s _ Hs) as (i & r & Hi & Hlen & Hr & ->).
  destruct (scan_candidates self (ipaddress.V4 ip) i Hlen) as [r' [Hr' Hspec]].
  assert (r' = r) by congruence. subst r'.
  destruct r as [c |]; [exfalso | reflexivity].
  destruct Hspec as (j & ej & _ & Ej & Cj & _).
  pose proof (built_entry_ok _ _ _ Hbuilt Ej) as [Hwfj _].
  apply (contains_in_block _ _ Hwfj Hip) in Cj.
  apply (Hout ej); [eapply nth_error_In; exact Ej | exact Cj].
Qed.

(** The scenario of the specification: ["3.0.0.1"] and ["1.0.1.1"] lie
    outside both blocks. *)
Lemma C4_witness :
  resolve scenario_mapper "3.0.0.1" = Ok "UNKNOWN" /\
  resolve scenario_mapper "1.0.1.1" = Ok "UNKNOWN".
Proof.
  split.
  - apply (C4_outside_every_range_unknown str.ascii_upper (fun _ => Ok scenario_tar)
             scenario_codes quiet_world (after_download quiet_world)
             scenario_mapper "3.0.0.1" 50331649).
    + exact scenario_build.
    + vm_compute; reflexivity.
    + intros e [<- | [<- | []]]; unfold in_block, end_address; cbn; lia.
  - apply (C4_outside_every_range_unknown str.ascii_upper (fun _ => Ok scenario_tar)
             scenario_codes quiet_world (after_download quiet_world)
             scenario_mapper "1.0.1.1" 16777473).
    + exact scenario_build.
    + vm_compute; reflexivity.
    + intros e [<- | [<- | []]]; unfold in_block, end_address; cbn; lia.
Defined.

(* ================================================================== *)
(** ** C6: the download loop                                           *)
(* ================================================================== *)

(** One turn of the loop. *)
Lemma retry_loop_step {A} (op : M A) (attempt : nat) (w : World) :
  retry_loop op attempt w =
  match op w with
  | (Ok a, w') => (Ok a, w')
  | (Raise e, w') =>
      if le_dec 3 (S attempt) then (Raise e, w')
      else retry_loop op (S attempt) w'
  end.
Proof.
  funelim (retry_loop op attempt w).
  - rewrite Heq. reflexivity.
  - rewrite Heq0, Heq. reflexivity.
  - rewrite Heq0, Heq. reflexivity.
Qed.

Lemma with_retry_first {A} (op : M A) (w0 w1 : World) (a : A) :
  op w0 = (Ok a, w1) -> with_retry op w0 = (Ok a, w1).
Proof.
  intros H0. unfold with_retry. rewrite retry_loop_step, H0. reflexivity.
Qed.

Lemma with_retry_second {A} (op : M A) (w0 w1 w2 : World) (e1 : exn) (a : A) :
  op w0 = (Raise e1, w1) -> op w1 = (Ok a, w2) ->
  with_retry op w0 = (Ok a, w2).
Proof.
  intros H0 H1. unfold with_retry.
  rewrite retry_loop_step, H0. cbn.
  rewrite retry_loop_step, H1. reflexivity.
Qed.

Lemma with_retry_third {A} (op : M A) (w0 w1 w2 w3 : World) (e1 e2 : exn) (a : A) :
  op w0 = (Raise e1, w1) -> op w1 = (Raise e2, w2) -> op w2 = (Ok a, w3) ->
  with_retry op w0 = (Ok a, w3).
Proof.
  intros H0 H1 H2. unfold with_retry.
  rewrite retry_loop_step, H0. cbn.
  rewrite retry_loop_step, H1. cbn.
  rewrite retry_loop_step, H2. reflexivity.
Qed.

Lemma with_retry_exhausted {A} (op : M A) (w0 w1 w2 w3 : World) (e1 e2 e3 : exn) :
  op w0 = (Raise e1, w1) -> op w1 = (Raise e2, w2) -> op w2 = (Raise e3, w3) ->
  with_retry (A := A) op w0 = (Raise e3, w3).
Proof.
  intros H0 H1 H2. unfold with_retry.
  rewrite retry_loop_step, H0. cbn.
  rewrite retry_loop_step, H1. cbn.
  rewrite retry_loop_step, H2. reflexivity.
Qed.

(** A request, whatever its outcome, adds one URL to the log. *)
Lemma fetch_sent (url : string) (w w' : World) (r : result Response) :
  fetch url w = (r, w') -> sent w' = sent w ++ [url].
Proof.
  unfold fetch, mbind, get, lift, ret.
  destruct (oracle w (List.length (sent w)) url) as [resp | e].
  - destruct (raise_for_status resp) as [[] | e]; intros E; injection E as _ <-;
      reflexivity.
  - intros E. injection E as _ <-. reflexivity.
Qed.

(** The loop returns after one, two or three requests; when it raises,
    after three. *)
Lemma with_retry_fetch_sent (url : string) (w w' : World) (r : result Response) :
  with_retry (fetch url) w = (r, w') ->
  match r with
  | Raise _ => sent w' = sent w ++ [url; url; url]
  | Ok _ => sent w' = sent w ++ [url] \/ sent w' = sent w ++ [url; url]
            \/ sent w' = sent w ++ [url; url; url]
  end.
Proof.
  destruct (fetch url w) as [[a1 | e1] w1] eqn:H0.
  { rewrite (with_retry_first _ _ _ _ H0). intros E. injection E as <- <-.
    left. eapply fetch_sent. exact H0. }
  destruct (fetch url w1) as [[a2 | e2] w2] eqn:H1.
  { rewrite (with_retry_second _ _ _ _ _ _ H0 H1). intros E. injection E as <- <-.
    right. left. apply fetch_sent in H0, H1. rewrite H1, H0, <- app_assoc.
    reflexivity. }
  destruct (fetch url w2) as [[a3 | e3] w3] eqn:H2.
  { rewrite (with_retry_third _ _ _ _ _ _ _ _ H0 H1 H2). intros E.
    injection E as <- <-. right. right.
    apply fetch_sent in H0, H1, H2. rewrite H2, H1, H0, <- !app_assoc.
    reflexivity. }
  rewrite (with_retry_exhausted _ _ _ _ _ _ _ _ H0 H1 H2). intros E.
  injection E as <- <-.
  apply fetch_sent in H0, H1, H2. rewrite H2, H1, H0, <- !app_assoc.
  reflexivity.
Qed.

(** C6: with the ceiling of three attempts, an operation that fails three
    times in a row is run exactly three times (on the worlds [w0], [w1],
    [w2]) and the error of the third run is raised; a success on the first,
    second or third run is returned without raising.  For the download
    itself, a loop that raises has sent exactly three requests. *)
Theorem C6_retry_three_attempts :
  (forall (A : Type) (op : M A) (w0 w1 w2 w3 : World) (e1 e2 e3 : exn),
      op w0 = (Raise e1, w1) -> op w1 = (Raise e2, w2) -> op w2 = (Raise e3, w3) ->
      with_retry op w0 = (Raise e3, w3)) /\
  (forall (A : Type) (op : M A) (w0 w1 : World) (a : A),
      op w0 = (Ok a, w1) -> with_retry op w0 = (Ok a, w1)) /\
  (forall (A : Type) (op : M A) (w0 w1 w2 : World) (e1 : exn) (a : A),
      op w0 = (Raise e1, w1) -> op w1 = (Ok a, w2) ->
      with_retry op w0 = (Ok a, w2)) /\
  (forall (A : Type) (op : M A) (w0 w1 w2 w3 : World) (e1 e2 : exn) (a : A),
      op w0 = (Raise e1, w1) -> op w1 = (Raise e2, w2) -> op w2 = (Ok a, w3) ->
      with_retry op w0 = (Ok a, w3)) /\
  (forall (url : string) (w w' : World) (e : exn),
      with_retry (fetch url) w = (Raise e, w') ->
      sent w' = sent w ++ [url; url; url]).
Proof.
  split; [intros A op w0 w1 w2 w3 e1 e2 e3; apply with_retry_exhausted |].
  split; [intros A op w0 w1 a; apply with_retry_first |].
  split; [intros A op w0 w1 w2 e1 a; apply with_retry_second |].
  split; [intros A op w0 w1 w2 w3 e1 e2 a; apply with_retry_third |].
  intros url w w' e H. apply (with_retry_fetch_sent url w w' (Raise e) H).
Qed.

Lemma C6_witness :
  with_retry (fetch "u") failing_world
  = (Raise (RequestException "ConnectionError"),
     requested failing_world ["u"; "u"; "u"]) /\
  with_retry (fetch "u") flaky_world
  = (Ok (mk_Response 200 "Code" ""), requested flaky_world ["u"; "u"; "u"]).
Proof.
  split.
  - apply (proj1 C6_retry_three_attempts Response (fetch "u")
             failing_world
             (requested failing_world ["u"])
             (requested failing_world ["u"; "u"])
             (requested failing_world ["u"; "u"; "u"])
             (RequestException "ConnectionError")
             (RequestException "ConnectionError")
             (RequestException "ConnectionError")); reflexivity.
  - apply (proj1 (proj2 (proj2 (proj2 C6_retry_three_attempts)))
             Response (fetch "u")
             flaky_world
             (requested flaky_world ["u"])
             (requested flaky_world ["u"; "u"])
             (requested flaky_world ["u"; "u"; "u"])
             (RequestException "ConnectionError")
             (RequestException "ConnectionError")); reflexivity.
Defined.

(* ================================================================== *)
(** ** C7: a country without a member in the archive                   *)
(* ================================================================== *)

Section MissingMember.

Variable str_upper : string -> string.
Variable TarFile_open : string -> result TarFile.

Lemma getmember_raise (tar : TarFile) (name : string) (e : exn) :
  getmember tar name = Raise e -> e = KeyError.
Proof.
  induction tar as [| [n m] tar IH]; cbn [getmember].
  - congruence.
  - destruct (getmember tar name); [discriminate |]. case_if; congruence.
Qed.

Lemma download_absent (self : CountryCidrMapper) (zones : TarFile) (code : string) :
  country_zones self = Some zones ->
  getmember zones (zone_member code) = Raise KeyError ->
  download_ip_blocks self code = Ok [].
Proof.
  intros Hz Hm. unfold download_ip_blocks, extractfile. rewrite Hz, Hm. reflexivity.
Qed.

Lemma download_readable (self : CountryCidrMapper) (zones : TarFile)
  (code decoded : string) :
  country_zones self = Some zones ->
  getmember zones (zone_member code) = Ok (RegularFile (Some decoded)) ->
  download_ip_blocks self code = Ok (str.split newline (str.strip decoded)).
Proof.
  intros Hz Hm. unfold download_ip_blocks, extractfile. rewrite Hz, Hm. reflexivity.
Qed.

(** A code whose extraction is empty leaves the loop's result as it is. *)
Lemma load_codes_skip (self : CountryCidrMapper) (code : string)
  (l1 l2 : list string) (acc : list entry) :
  download_ip_blocks self code = Ok [] ->
  load_codes str_upper self (l1 ++ code :: l2) acc
  = load_codes str_upper self (l1 ++ l2) acc.
Proof.
  intros Hd. revert acc. induction l1 as [| c l1 IH]; intros acc; cbn [app load_codes].
  - rewrite Hd. reflexivity.
  - destruct (download_ip_blocks self c) as [cidrs |]; cbn [rbind]; [| reflexivity].
    apply IH.
Qed.

(** The loop returns when every extraction does. *)
Lemma load_codes_total (self : CountryCidrMapper) (codes : list string)
  (acc : list entry) :
  (forall c, In c codes -> exists cidrs, download_ip_blocks self c = Ok cidrs) ->
  exists m, load_codes str_upper self codes acc = Ok m.
Proof.
  revert acc. induction codes as [| c codes IH]; intros acc Hall; cbn [load_codes].
  - eauto.
  - destruct (Hall c (or_introl eq_refl)) as [cidrs ->]. cbn [rbind].
    apply IH. intros c' Hc'. apply Hall. right. assumption.
Qed.

(** C7: when the archive has no member for a listed country code, the
    extraction for that code yields the empty list; the build proceeds as if
    the code were not listed, and completes when the other listed members are
    missing or readable; and the built index holds no range labelled with
    that country (every listed code that denotes it being without a
    member). *)
Theorem C7_missing_member_is_skipped
  (l1 l2 : list string) (code : string) (w w1 : World)
  (response : Response) (zones : TarFile) :
  with_retry (fetch all_zones_url) w = (Ok response, w1) ->
  TarFile_open (content response) = Ok zones ->
  getmember zones (zone_member code) = Raise KeyError ->
  download_ip_blocks (mk_mapper [] (Some zones)) code = Ok [] /\
  CountryCidrMapper_init str_upper TarFile_open (l1 ++ code :: l2) w
  = CountryCidrMapper_init str_upper TarFile_open (l1 ++ l2) w /\
  ((forall c, In c (l1 ++ l2) -> missing_or_readable zones c) ->
   exists self,
     CountryCidrMapper_init str_upper TarFile_open (l1 ++ code :: l2) w
     = (Ok self, w1)) /\
  (forall self w',
     CountryCidrMapper_init str_upper TarFile_open (l1 ++ code :: l2) w
     = (Ok self, w') ->
     (forall c, In c (l1 ++ l2) -> str_upper c = str_upper code ->
                getmember zones (zone_member c) = Raise KeyError) ->
     forall e, In e (NETWORK_MAP self) -> country_of e <> str_upper code).
Proof.
  intros Hfetch Hopen Hmissing.
  assert (Hd : download_ip_blocks (mk_mapper [] (Some zones)) code = Ok [])
    by (eapply download_absent; [reflexivity | exact Hmissing]).
  assert (Hsame :
    CountryCidrMapper_init str_upper TarFile_open (l1 ++ code :: l2) w
    = CountryCidrMapper_init str_upper TarFile_open (l1 ++ l2) w).
  { unfold CountryCidrMapper_init, load_country_data, mbind, lift.
    rewrite Hfetch, Hopen. cbn [NETWORK_MAP].
    rewrite (load_codes_skip _ code l1 l2 [] Hd). reflexivity. }
  split; [exact Hd |]. split; [exact Hsame |]. split.
  - intros Hothers. rewrite Hsame.
    destruct (load_codes_total (mk_mapper [] (Some zones)) (l1 ++ l2) []) as [m Hm].
    { intros c Hc. destruct (Hothers c Hc) as [Habs | [decoded Hread]].
      - exists []. eapply download_absent; [reflexivity | exact Habs].
      - eexists. eapply download_readable; [reflexivity | exact Hread]. }
    exists (mk_mapper (sorted_by_start m) (Some zones)).
    unfold CountryCidrMapper_init, load_country_data, mbind, lift, ret.
    rewrite Hfetch, Hopen. cbn [NETWORK_MAP]. rewrite Hm. reflexivity.
  - intros self w' Hinit Hcountry e He Hlabel.
    apply init_Ok in Hinit.
    destruct Hinit as (response' & zones' & nets & Hfetch' & Hopen' & Hload & ->).
    assert (response' = response) by congruence. subst response'.
    assert (zones' = zones) by congruence. subst zones'.
    cbn [NETWORK_MAP] in He. apply (proj1 (sorted_by_start_In _ _)) in He.
    apply load_codes_spec in Hload. destruct Hload as [new [-> Hnew]].
    cbn [app] in He. rewrite Forall_forall in Hnew.
    destruct (Hnew e He) as [_ (c & cidrs & Hc & Hdc & Hne & Hlab)].
    assert (Habs : getmember zones (zone_member c) = Raise KeyError).
    { apply in_app_or in Hc. destruct Hc as [Hc | [<- | Hc]].
      - apply Hcountry; [apply in_or_app; left; exact Hc | congruence].
      - exact Hmissing.
      - apply Hcountry; [apply in_or_app; right; exact Hc | congruence]. }
    rewrite (download_absent (mk_mapper [] (Some zones)) zones c eq_refl Habs) in Hdc.
    apply Ok_inj in Hdc. congruence.
Qed.

End MissingMember.

(** The scenario with a listed country, ["zz"], that has no member. *)
Lemma C7_witness :
  download_ip_blocks (mk_mapper [] (Some scenario_tar)) "zz" = Ok [] /\
  CountryCidrMapper_init str.ascii_upper (fun _ => Ok scenario_tar)
    (["us"] ++ "zz" :: ["ca"]) quiet_world
  = (Ok scenario_mapper, after_download quiet_world) /\
  forall e, In e (NETWORK_MAP scenario_mapper) -> country_of e <> "ZZ".
Proof.
  destruct (C7_missing_member_is_skipped str.ascii_upper (fun _ => Ok scenario_tar)
              ["us"] ["ca"] "zz" quiet_world (after_download quiet_world)
              (mk_Response 200 "" "") scenario_tar
              eq_refl eq_refl eq_refl) as (Hd & Hsame & _ & Hnone).
  assert (Hb : CountryCidrMapper_init str.ascii_upper (fun _ => Ok scenario_tar)
                 (["us"] ++ "zz" :: ["ca"]) quiet_world
               = (Ok scenario_mapper, after_download quiet_world))
    by (rewrite Hsame; exact scenario_build).
  split; [exact Hd |]. split; [exact Hb |].
  apply (Hnone _ _ Hb).
  intros c [<- | [<- | []]] Hc; vm_compute in Hc; discriminate Hc.
Defined.

(* ================================================================== *)
(** ** C8: the country list cannot be downloaded                       *)
(* ================================================================== *)

(** C8: when the three attempts to download the country list fail and the
    third fails with a network or HTTP error (a [RequestException]),
    [get_iso_country_codes] returns the empty list instead of raising. *)
Theorem C8_country_list_failure_is_empty
  (str_lower : string -> string) (DictReader : string -> reader)
  (w0 w1 w2 w3 : World) (e1 e2 : exn) (detail : string) :
  fetch country_list_url w0 = (Raise e1, w1) ->
  fetch country_list_url w1 = (Raise e2, w2) ->
  fetch country_list_url w2 = (Raise (RequestException detail), w3) ->
  get_iso_country_codes str_lower DictReader w0 = (Ok [], w3).
Proof.
  intros H0 H1 H2. unfold get_iso_country_codes, try_exceptM, mbind.
  rewrite (with_retry_exhausted _ _ _ _ _ _ _ _ H0 H1 H2). reflexivity.
Qed.

Lemma C8_witness :
  get_iso_country_codes str.ascii_lower (fun _ => []) failing_world
  = (Ok [], requested failing_world
              [country_list_url; country_list_url; country_list_url]) /\
  get_iso_country_codes str.ascii_lower (fun _ => []) unavailable_world
  = (Ok [], requested unavailable_world
              [country_list_url; country_list_url; country_list_url]).
Proof.
  split.
  - apply (C8_country_list_failure_is_empty str.ascii_lower (fun _ => [])
             failing_world
             (requested failing_world [country_list_url])
             (requested failing_world [country_list_url; country_list_url])
             (requested failing_world
                [country_list_url; country_list_url; country_list_url])
             (RequestException "ConnectionError")
             (RequestException "ConnectionError") "ConnectionError"); reflexivity.
  - apply (C8_country_list_failure_is_empty str.ascii_lower (fun _ => [])
             unavailable_world
             (requested unavailable_world [country_list_url])
             (requested unavailable_world [country_list_url; country_list_url])
             (requested unavailable_world
                [country_list_url; country_list_url; country_list_url])
             (RequestException "HTTPError")
             (RequestException "HTTPError") "HTTPError"); reflexivity.
Defined.

(* ================================================================== *)
(** ** C9: the index is sorted and queries leave it alone              *)
(* ================================================================== *)

Lemma get_country_from_ip_self (self : CountryCidrMapper) (ip : string) :
  snd (get_country_from_ip self ip) = self.
Proof. reflexivity. Qed.

Lemma query_all_self (self : CountryCidrMapper) (ips : list string) :
  snd (query_all self ips) = self.
Proof.
  induction ips as [| ip ips IH]; cbn [query_all]; [reflexivity |].
  destruct (get_country_from_ip self ip) as [answer self'] eqn:E.
  assert (self' = self) by (rewrite <- (get_country_from_ip_self self ip), E; reflexivity).
  subst self'. destruct (query_all self ips) as [answers self'']. exact IH.
Qed.

(** C9: the index of a built mapper is sorted ascending by start address,
    and neither a query nor a sequence of queries changes the object, so the
    index stays as built. *)
Theorem C9_index_sorted_and_unchanged
  (str_upper : string -> string) (TarFile_open : string -> result TarFile)
  (codes : list string) (w w' : World) (self : CountryCidrMapper) :
  CountryCidrMapper_init str_upper TarFile_open codes w = (Ok self, w') ->
  StronglySorted le_start (NETWORK_MAP self) /\
  (forall j k ej ek, (j <= k)%nat ->
     nth_error (NETWORK_MAP self) j = Some ej ->
     nth_error (NETWORK_MAP self) k = Some ek ->
     start_of ej <= start_of ek) /\
  (forall ip, snd (get_country_from_ip self ip) = self) /\
  (forall ips, NETWORK_MAP (snd (query_all self ips)) = NETWORK_MAP self).
Proof.
  intros Hinit. pose proof (init_built _ _ _ _ _ _ Hinit) as [Hsorted _].
  split; [exact Hsorted |]. split; [| split].
  - intros j k ej ek Hjk Ej Ek. eapply StronglySorted_nth; eassumption.
  - intros ip. apply get_country_from_ip_self.
  - intros ips. rewrite query_all_self. reflexivity.
Qed.

Lemma C9_witness :
  StronglySorted le_start (NETWORK_MAP scenario_mapper) /\
  snd (get_country_from_ip scenario_mapper "1.0.0.5") = scenario_mapper.
Proof.
  destruct (C9_index_sorted_and_unchanged str.ascii_upper (fun _ => Ok scenario_tar)
              scenario_codes quiet_world (after_download quiet_world)
              scenario_mapper scenario_build) as (Hs & _ & Hq & _).
  split; [exact Hs | apply Hq].
Defined.

(* ================================================================== *)
(** ** C10: no position outside the index is read                      *)
(* ================================================================== *)

(** C10: on an empty index every valid IPv4 address resolves to
    ["UNKNOWN"]; for every index and every query string the resolver
    returns a value (no [IndexError] escapes); and for every index and every
    searched value the search returns an insertion point within the list and
    every position of the candidate window is a non-negative position that
    exists. *)
Theorem C10_candidates_exist :
  (forall (zones : option TarFile) (s : string) (ip : Z),
      ipaddress.ip_address s = Ok (ipaddress.V4 ip) ->
      resolve (mk_mapper [] zones) s = Ok "UNKNOWN") /\
  (forall (self : CountryCidrMapper) (s : string),
      exists c, resolve self s = Ok c) /\
  (forall (self : CountryCidrMapper) (x : Z),
      exists i,
        bisect.bisect_right
          (map (fun item : entry => fst (fst item)) (NETWORK_MAP self)) x = Ok i /\
        (i <= List.length (NETWORK_MAP self))%nat /\
        Forall (fun j => 0 <= j < Z.of_nat (List.length (NETWORK_MAP self)) /\
                         exists e, getitem (NETWORK_MAP self) j = Ok e)
               (candidates i)).
Proof.
  split; [| split].
  - intros zones s ip Hs.
    destruct (resolve_parsed_total (mk_mapper [] zones) s _ Hs)
      as (i & r & Hi & Hlen & Hr & ->).
    cbn [NETWORK_MAP List.length] in Hlen.
    assert (i = 0%nat) by lia. subst i.
    rewrite candidates_0 in Hr. cbn [scan] in Hr.
    apply Ok_inj in Hr. subst r. reflexivity.
  - intros self s. destruct (ipaddress.ip_address s) as [a | e] eqn:E.
    + destruct (resolve_parsed_total self s a E) as (i & r & _ & _ & _ & ->). eauto.
    + exists "INVALID IP". unfold resolve.
      rewrite unparseable_invalid_ip; [reflexivity | congruence].
  - intros self x.
    destruct (bisect_right_total
                (map (fun item : entry => fst (fst item)) (NETWORK_MAP self)) x)
      as [i [Hi Hlen]].
    rewrite length_map in Hlen.
    exists i. split; [exact Hi |]. split; [exact Hlen |].
    eapply Forall_impl; [| apply (candidates_in_range i _ Hlen)].
    intros j Hj. cbv beta in Hj. split; [exact Hj |].
    destruct (nth_error (NETWORK_MAP self) (Z.to_nat j)) as [e |] eqn:Ej;
      [| apply nth_error_None in Ej; lia].
    exists e. rewrite (getitem_in_range _ _ e Hj). f_equal.
    apply nth_error_nth. exact Ej.
Qed.

Lemma C10_witness :
  resolve (mk_mapper [] None) "1.0.0.5" = Ok "UNKNOWN".
Proof.
  apply (proj1 C10_candidates_exist None "1.0.0.5" 16777221).
  vm_compute. reflexivity.
Defined.

(* ================================================================== *)
(** ** Further properties of the resolver                              *)
(* ================================================================== *)

(** X1: for every index and every string that parses as an address, the
    resolver answers with the country of the lowest position, among the two
    just before the insertion point, whose network contains the address, and
    with ["UNKNOWN"] when neither does. *)
Theorem X1_resolve_lowest_candidate (self : CountryCidrMapper) (s : string)
  (a : ipaddress.address) :
  ipaddress.ip_address s = Ok a ->
  exists i,
    bisect.bisect_right (map (fun item : entry => fst (fst item)) (NETWORK_MAP self))
      (ipaddress.int a) = Ok i /\
    (i <= List.length (NETWORK_MAP self))%nat /\
    ((resolve self s = Ok "UNKNOWN" /\
      forall j e, (i - 2 <= j < i)%nat ->
        nth_error (NETWORK_MAP self) j = Some e ->
        ipaddress.contains (network_of e) a = false)
     \/
     (exists j e, (i - 2 <= j < i)%nat /\
        nth_error (NETWORK_MAP self) j = Some e /\
        ipaddress.contains (network_of e) a = true /\
        resolve self s = Ok (country_of e) /\
        forall j' e', (i - 2 <= j' < j)%nat ->
          nth_error (NETWORK_MAP self) j' = Some e' ->
          ipaddress.contains (network_of e') a = false)).
Proof.
  intros Hs.
  destruct (resolve_parsed_total self s a Hs) as (i & r & Hi & Hlen & Hr & Hres).
  destruct (scan_candidates self a i Hlen) as [r' [Hr' Hspec]].
  assert (r' = r) by congruence. subst r'.
  exists i. split; [exact Hi |]. split; [exact Hlen |].
  destruct r as [c |].
  - right. destruct Hspec as (j & e & Hj & Ej & Cj & -> & Hbefore).
    exists j, e. auto.
  - left. auto.
Qed.

Lemma X1_witness :
  exists i,
    bisect.bisect_right
      (map (fun item : entry => fst (fst item)) (NETWORK_MAP overlap_mapper))
      16909060 = Ok i /\
    (i <= 2)%nat.
Proof.
  destruct (X1_resolve_lowest_candidate overlap_mapper "1.2.3.4"
              (ipaddress.V4 16909060)) as (i & Hi & Hlen & _).
  - vm_compute. reflexivity.
  - exists i. split; [exact Hi | exact Hlen].
Defined.

(** X2: a built mapper never attributes an address to a country without a
    loaded range of that country around it: an answer other than the two
    sentinels is the label of an index entry whose range contains the
    (IPv4) address queried. *)
Theorem X2_resolve_sound
  (str_upper : string -> string) (TarFile_open : string -> result TarFile)
  (codes : list string) (w w' : World) (self : CountryCidrMapper)
  (s c : string) :
  CountryCidrMapper_init str_upper TarFile_open codes w = (Ok self, w') ->
  resolve self s = Ok c ->
  c = "INVALID IP" \/ c = "UNKNOWN" \/
  exists ip e,
    ipaddress.ip_address s = Ok (ipaddress.V4 ip) /\
    In e (NETWORK_MAP self) /\ country_of e = c /\
    in_block (network_of e) ip.
Proof.
  intros Hinit Hres.
  pose proof (init_built _ _ _ _ _ _ Hinit) as Hbuilt.
  destruct (ipaddress.ip_address s) as [a | e] eqn:Hs.
  - destruct (resolve_parsed_total self s a Hs) as (i & r & Hi & Hlen & Hr & Hres').
    destruct (scan_candidates self a i Hlen) as [r' [Hr' Hspec]].
    assert (r' = r) by congruence. subst r'.
    rewrite Hres' in Hres. apply Ok_inj in Hres.
    destruct r as [c' |]; [| right; left; congruence].
    subst c'. right. right.
    destruct Hspec as (j & ej & _ & Ej & Cj & -> & _).
    destruct a as [ip | ip sc]; [| discriminate].
    destruct (ip_address_V4 _ _ Hs) as [_ Hip].
    pose proof (built_entry_ok _ _ _ Hbuilt Ej) as [Hwf _].
    exists ip, ej. split; [reflexivity |].
    split; [eapply nth_error_In; exact Ej |]. split; [reflexivity |].
    apply (contains_in_block _ _ Hwf Hip). exact Cj.
  - left. unfold resolve in Hres.
    rewrite unparseable_invalid_ip in Hres by congruence.
    cbn [fst] in Hres. congruence.
Qed.

Lemma X2_witness :
  "US" = "INVALID IP" \/ "US" = "UNKNOWN" \/
  exists ip e,
    ipaddress.ip_address "1.0.0.5" = Ok (ipaddress.V4 ip) /\
    In e (NETWORK_MAP scenario_mapper) /\ country_of e = "US" /\
    in_block (network_of e) ip.
Proof.
  apply (X2_resolve_sound str.ascii_upper (fun _ => Ok scenario_tar)
           scenario_codes quiet_world (after_download quiet_world)
           scenario_mapper "1.0.0.5" "US").
  - exact scenario_build.
  - vm_compute. reflexivity.
Defined.

(** X3: when the ranges of a built index are pairwise disjoint, every IPv4
    address inside a loaded range resolves to that range's country. *)
Theorem X3_resolve_complete_on_disjoint_ranges
  (str_upper : string -> string) (TarFile_open : string -> result TarFile)
  (codes : list string) (w w' : World) (self : CountryCidrMapper)
  (s : string) (ip : Z) (k : nat) (e : entry) :
  CountryCidrMapper_init str_upper TarFile_open codes w = (Ok self, w') ->
  (forall k1 k2 e1 e2 x, k1 <> k2 ->
     nth_error (NETWORK_MAP self) k1 = Some e1 ->
     nth_error (NETWORK_MAP self) k2 = Some e2 ->
     in_block (network_of e1) x -> in_block (network_of e2) x -> False) ->
  ipaddress.ip_address s = Ok (ipaddress.V4 ip) ->
  nth_error (NETWORK_MAP self) k = Some e ->
  in_block (network_of e) ip ->
  resolve self s = Ok (country_of e).
Proof.
  intros Hinit. apply resolve_disjoint_blocks.
  eapply init_built. exact Hinit.
Qed.

Lemma X3_witness :
  resolve scenario_mapper "2.0.0.255" = Ok "CA".
Proof.
  apply (X3_resolve_complete_on_disjoint_ranges str.ascii_upper
           (fun _ => Ok scenario_tar) scenario_codes quiet_world
           (after_download quiet_world) scenario_mapper "2.0.0.255" 33554687 1
           (33554432, ipaddress.mk_network 33554432 4294967040 24, "CA")).
  - exact scenario_build.
  - intros k1 k2 e1 e2 x Hne E1 E2 H1 H2.
    destruct k1 as [| [| k1]]; [| | destruct k1; discriminate];
      (destruct k2 as [| [| k2]]; [| | destruct k2; discriminate]);
      try (exfalso; apply Hne; reflexivity);
      cbn in E1, E2; injection E1 as <-; injection E2 as <-;
      unfold in_block, end_address in H1, H2; cbn in H1, H2; lia.
  - vm_compute. reflexivity.
  - reflexivity.
  - unfold in_block, end_address; cbn; lia.
Defined.

Lemma count_le_prefix (a : list Z) (x : Z) (i : nat) :
  (i <= List.length a)%nat ->
  (forall k, (k < i)%nat -> nth k a 0 <= x) ->
  (forall k, (i <= k < List.length a)%nat -> x < nth k a 0) ->
  List.length (filter (fun v => v <=? x) a) = i.
Proof.
  revert i. induction a as [| v a IH]; intros i Hi Hleft Hright; cbn [List.length] in *.
  - cbn. lia.
  - cbn [filter]. destruct i as [| i].
    + pose proof (Hright 0%nat ltac:(lia)) as Hv. cbn in Hv.
      destruct (Z.leb_spec v x); [lia |].
      apply IH; [lia | intros k Hk; lia |].
      intros k Hk. apply (Hright (S k)). lia.
    + pose proof (Hleft 0%nat ltac:(lia)) as Hv. cbn in Hv.
      destruct (Z.leb_spec v x); [| lia]. cbn [List.length]. f_equal.
      apply IH; [lia | |].
      * intros k Hk. apply (Hleft (S k)). lia.
      * intros k Hk. apply (Hright (S k)). lia.
Qed.

Lemma length_filter_map {A B} (f : A -> B) (p : B -> bool) (l : list A) :
  List.length (filter p (map f l)) = List.length (filter (fun x => p (f x)) l).
Proof.
  induction l as [| x l IH]; cbn; [reflexivity |].
  destruct (p (f x)); cbn; rewrite IH; reflexivity.
Qed.

(** X4: on a built index the insertion point the resolver searches for is
    the number of loaded ranges whose start address is at most the value
    searched. *)
Theorem X4_insertion_point_counts_starts
  (str_upper : string -> string) (TarFile_open : string -> result TarFile)
  (codes : list string) (w w' : World) (self : CountryCidrMapper) (x : Z) :
  CountryCidrMapper_init str_upper TarFile_open codes w = (Ok self, w') ->
  bisect.bisect_right (map (fun item : entry => fst (fst item)) (NETWORK_MAP self)) x
  = Ok (List.length (filter (fun e => start_of e <=? x) (NETWORK_MAP self))).
Proof.
  intros Hinit. pose proof (init_built _ _ _ _ _ _ Hinit) as [Hsorted _].
  destruct (bisect_right_total
              (map (fun item : entry => fst (fst item)) (NETWORK_MAP self)) x)
    as [i [Hi Hlen]].
  rewrite Hi. f_equal.
  destruct (bisect_right_spec _ _ _ (sorted_ascending _ Hsorted) Hi)
    as (_ & Hleft & Hright).
  rewrite <- (length_filter_map (fun item : entry => fst (fst item))
                (fun v => v <=? x)).
  symmetry. apply count_le_prefix; assumption.
Qed.

Lemma X4_witness :
  bisect.bisect_right
    (map (fun item : entry => fst (fst item)) (NETWORK_MAP nested_mapper)) 16973825
  = Ok 3%nat.
Proof.
  apply (X4_insertion_point_counts_starts str.ascii_upper (fun _ => Ok nested_tar)
           nested_codes quiet_world (after_download quiet_world)
           nested_mapper 16973825 nested_build).
Defined.

(* ================================================================== *)
(** ** Further properties of the build                                 *)
(* ================================================================== *)

Section BuildContents.

Variable str_upper : string -> string.
Variable TarFile_open : string -> result TarFile.

Lemma add_cidr_app (code : string) (acc : list entry) (c : string) :
  add_cidr str_upper code acc c = acc ++ line_entries str_upper code c.
Proof.
  unfold line_entries, add_cidr.
  destruct (str.is_empty (str.strip c)); [rewrite app_nil_r; reflexivity |].
  destruct (ipaddress.IPv4Network (str.strip c) false);
    [reflexivity | rewrite app_nil_r; reflexivity].
Qed.

Lemma fold_add_cidr_flat (code : string) (cidrs : list string) (acc : list entry) :
  fold_left (add_cidr str_upper code) cidrs acc
  = acc ++ flat_map (line_entries str_upper code) cidrs.
Proof.
  revert acc. induction cidrs as [| c cidrs IH]; intros acc; cbn [fold_left flat_map].
  - rewrite app_nil_r. reflexivity.
  - rewrite IH, add_cidr_app, <- app_assoc. reflexivity.
Qed.

(** The loop over the codes is a comprehension: for each code in order, for
    each line in order, the entry of the line if it parses. *)
Lemma load_codes_flat (self : CountryCidrMapper) (codes : list string)
  (acc m : list entry) :
  load_codes str_upper self codes acc = Ok m ->
  m = acc ++ flat_map (code_entries str_upper self) codes.
Proof.
  revert acc. induction codes as [| code codes IH]; intros acc; cbn [load_codes flat_map].
  - intros E. apply Ok_inj in E. subst. rewrite app_nil_r. reflexivity.
  - intros E. apply rbind_Ok in E. destruct E as [cidrs [Hd E]].
    unfold code_entries at 1. rewrite Hd.
    apply IH in E. rewrite E, app_assoc. f_equal.
    destruct cidrs as [| c0 cidrs']; [rewrite app_nil_r; reflexivity |].
    apply fold_add_cidr_flat.
Qed.

Lemma init_entries (codes : list string) (w w' : World) (self : CountryCidrMapper) :
  CountryCidrMapper_init str_upper TarFile_open codes w = (Ok self, w') ->
  NETWORK_MAP self
  = sorted_by_start (flat_map (code_entries str_upper self) codes).
Proof.
  intros E. apply init_Ok in E.
  destruct E as (response & zones & nets & _ & _ & Hl & ->). cbn [NETWORK_MAP].
  apply load_codes_flat in Hl. cbn [app] in Hl. subst nets. reflexivity.
Qed.

Lemma line_entries_parsed (code c : string) (n : ipaddress.network) :
  ipaddress.IPv4Network (str.strip c) false = Ok n ->
  line_entries str_upper code c
  = [(ipaddress.network_address n, n, str_upper code)].
Proof.
  intros Hn. unfold line_entries, add_cidr.
  rewrite (IPv4Network_not_empty _ _ _ Hn), Hn. reflexivity.
Qed.

Lemma line_entries_In (code c : string) (e : entry) :
  In e (line_entries str_upper code c) ->
  exists n, ipaddress.IPv4Network (str.strip c) false = Ok n /\
            e = (ipaddress.network_address n, n, str_upper code).
Proof.
  unfold line_entries, add_cidr.
  destruct (str.is_empty (str.strip c)); [intros [] |].
  destruct (ipaddress.IPv4Network (str.strip c) false) as [n |]; [| intros []].
  intros [<- | []]. eauto.
Qed.

(** X5: every line of a listed country's member that parses as an IPv4
    network (after [strip]) is in the built index, labelled with the
    upper-cased code and keyed by its network address. *)
Theorem X5_every_parsable_line_is_loaded
  (codes : list string) (w w' : World) (self : CountryCidrMapper)
  (zones : TarFile) (code decoded c : string) (n : ipaddress.network) :
  CountryCidrMapper_init str_upper TarFile_open codes w = (Ok self, w') ->
  country_zones self = Some zones ->
  In code codes ->
  getmember zones (zone_member code) = Ok (RegularFile (Some decoded)) ->
  In c (str.split newline (str.strip decoded)) ->
  ipaddress.IPv4Network (str.strip c) false = Ok n ->
  In (ipaddress.network_address n, n, str_upper code) (NETWORK_MAP self).
Proof.
  intros Hinit Hz Hcode Hmem Hc Hn.
  rewrite (init_entries _ _ _ _ Hinit).
  apply sorted_by_start_In. apply in_flat_map. exists code. split; [exact Hcode |].
  unfold code_entries. rewrite (download_readable self zones code decoded Hz Hmem).
  apply in_flat_map. exists c. split; [exact Hc |].
  rewrite (line_entries_parsed code c n Hn). left. reflexivity.
Qed.

(** X6: every entry of the built index comes from a line of the member of
    a listed code: the line parses (after [strip]) to the entry's network,
    the key is the network address and the label the upper-cased code. *)
Theorem X6_every_entry_has_a_source_line
  (codes : list string) (w w' : World) (self : CountryCidrMapper) (e : entry) :
  CountryCidrMapper_init str_upper TarFile_open codes w = (Ok self, w') ->
  In e (NETWORK_MAP self) ->
  exists zones code decoded c n,
    country_zones self = Some zones /\
    In code codes /\
    getmember zones (zone_member code) = Ok (RegularFile (Some decoded)) /\
    In c (str.split newline (str.strip decoded)) /\
    ipaddress.IPv4Network (str.strip c) false = Ok n /\
    e = (ipaddress.network_address n, n, str_upper code).
Proof.
  intros Hinit He.
  rewrite (init_entries _ _ _ _ Hinit) in He.
  apply (proj1 (sorted_by_start_In _ _)) in He.
  apply in_flat_map in He. destruct He as [code [Hcode He]].
  apply init_Ok in Hinit.
  destruct Hinit as (response & zones & nets & _ & _ & _ & ->).
  unfold code_entries, download_ip_blocks, extractfile in He.
  cbn [country_zones] in He.
  destruct (getmember zones (zone_member code)) as [[[decoded |] |] | err] eqn:Hmem;
    cbn [rbind] in He; try (destruct He; fail).
  - apply in_flat_map in He. destruct He as [c [Hc He]].
    apply line_entries_In in He. destruct He as [n [Hn ->]].
    exists zones, code, decoded, c, n. repeat split; auto.
  - destruct (isinstance_KeyError err); destruct He.
Qed.

Lemma filter_insert_by_start (k : Z) (x : entry) (l : list entry) :
  filter (fun e => start_of e =? k) (insert_by_start x l)
  = filter (fun e => start_of e =? k) (x :: l).
Proof.
  induction l as [| y l IH]; cbn [insert_by_start]; [reflexivity |].
  destruct (Z.leb_spec (start_of x) (start_of y)) as [Hle | Hgt]; [reflexivity |].
  cbn [filter] in *. rewrite IH.
  destruct (Z.eqb_spec (start_of x) k), (Z.eqb_spec (start_of y) k);
    try reflexivity. lia.
Qed.

Lemma filter_sorted_by_start (k : Z) (l : list entry) :
  filter (fun e => start_of e =? k) (sorted_by_start l)
  = filter (fun e => start_of e =? k) l.
Proof.
  induction l as [| x l IH]; cbn [sorted_by_start fold_right]; [reflexivity |].
  rewrite filter_insert_by_start. cbn [filter]. fold (sorted_by_start l).
  rewrite IH. reflexivity.
Qed.

(** X7: index entries with the same start address stand in load order: by
    the position of their code in the country list, then by line. *)
Theorem X7_equal_starts_keep_load_order
  (codes : list string) (w w' : World) (self : CountryCidrMapper) (k : Z) :
  CountryCidrMapper_init str_upper TarFile_open codes w = (Ok self, w') ->
  filter (fun e => start_of e =? k) (NETWORK_MAP self)
  = filter (fun e => start_of e =? k)
      (flat_map (code_entries str_upper self) codes).
Proof.
  intros Hinit. rewrite (init_entries _ _ _ _ Hinit) at 1.
  apply filter_sorted_by_start.
Qed.

Lemma load_codes_raise (self : CountryCidrMapper) (l1 l2 : list string)
  (code : string) (acc : list entry) (e : exn) :
  (forall c, In c l1 -> exists cidrs, download_ip_blocks self c = Ok cidrs) ->
  download_ip_blocks self code = Raise e ->
  load_codes str_upper self (l1 ++ code :: l2) acc = Raise e.
Proof.
  revert acc. induction l1 as [| c l1 IH]; intros acc Hall Hd; cbn [app load_codes].
  - rewrite Hd. reflexivity.
  - destruct (Hall c (or_introl eq_refl)) as [cidrs ->]. cbn [rbind].
    apply IH; [| exact Hd]. intros c' Hc'. apply Hall. right. exact Hc'.
Qed.

(** X9: a listed code whose member exists but is not a regular file, or
    whose bytes are not UTF-8, is not skipped: the construction of the
    mapper raises ([AttributeError], resp. [UnicodeDecodeError]), the
    members of the codes listed before it being missing or readable. *)
Theorem X9_unreadable_member_aborts_build
  (l1 l2 : list string) (code : string) (w w1 : World)
  (response : Response) (zones : TarFile) :
  with_retry (fetch all_zones_url) w = (Ok response, w1) ->
  TarFile_open (content response) = Ok zones ->
  (forall c, In c l1 -> missing_or_readable zones c) ->
  (getmember zones (zone_member code) = Ok NotRegular ->
   CountryCidrMapper_init str_upper TarFile_open (l1 ++ code :: l2) w
   = (Raise AttributeError, w1)) /\
  (getmember zones (zone_member code) = Ok (RegularFile None) ->
   CountryCidrMapper_init str_upper TarFile_open (l1 ++ code :: l2) w
   = (Raise UnicodeDecodeError, w1)).
Proof.
  intros Hfetch Hopen Hbefore.
  assert (Hl1 : forall c, In c l1 ->
            exists cidrs, download_ip_blocks (mk_mapper [] (Some zones)) c = Ok cidrs).
  { intros c Hc. destruct (Hbefore c Hc) as [Habs | [decoded Hread]].
    - exists []. apply (download_absent (mk_mapper [] (Some zones)) zones c eq_refl Habs).
    - eexists.
      apply (download_readable (mk_mapper [] (Some zones)) zones c decoded eq_refl Hread). }
  split; intros Hmem;
    unfold CountryCidrMapper_init, load_country_data, mbind, lift;
    rewrite Hfetch, Hopen; cbn [NETWORK_MAP].
  - rewrite (load_codes_raise (mk_mapper [] (Some zones)) l1 l2 code []
               AttributeError Hl1); [reflexivity |].
    unfold download_ip_blocks, extractfile; cbn [country_zones].
    rewrite Hmem. reflexivity.
  - rewrite (load_codes_raise (mk_mapper [] (Some zones)) l1 l2 code []
               UnicodeDecodeError Hl1); [reflexivity |].
    unfold download_ip_blocks, extractfile; cbn [country_zones].
    rewrite Hmem. reflexivity.
Qed.

(** X10: the construction of the mapper swallows no download error: after
    three failed attempts it raises the third error, of whatever class, and
    an archive that [TarFile.open] refuses makes it raise that error. *)
Theorem X10_build_propagates_download_errors (codes : list string) :
  (forall (w0 w1 w2 w3 : World) (e1 e2 e3 : exn),
      fetch all_zones_url w0 = (Raise e1, w1) ->
      fetch all_zones_url w1 = (Raise e2, w2) ->
      fetch all_zones_url w2 = (Raise e3, w3) ->
      CountryCidrMapper_init str_upper TarFile_open codes w0 = (Raise e3, w3)) /\
  (forall (w w1 : World) (response : Response) (e : exn),
      with_retry (fetch all_zones_url) w = (Ok response, w1) ->
      TarFile_open (content response) = Raise e ->
      CountryCidrMapper_init str_upper TarFile_open codes w = (Raise e, w1)).
Proof.
  split.
  - intros w0 w1 w2 w3 e1 e2 e3 H0 H1 H2.
    unfold CountryCidrMapper_init, load_country_data, mbind.
    rewrite (with_retry_exhausted _ _ _ _ _ _ _ _ H0 H1 H2). reflexivity.
  - intros w w1 response e Hfetch Hopen.
    unfold CountryCidrMapper_init, load_country_data, mbind, lift.
    rewrite Hfetch, Hopen. reflexivity.
Qed.

End BuildContents.

Lemma mixed_build :
  build_from mixed_tar mixed_codes = (Ok mixed_mapper, after_download quiet_world).
Proof. vm_compute. reflexivity. Qed.

Lemma X5_witness :
  In (167772160, ipaddress.mk_network 167772160 4294967040 24, "US")
     (NETWORK_MAP mixed_mapper).
Proof.
  apply (X5_every_parsable_line_is_loaded str.ascii_upper (fun _ => Ok mixed_tar)
           mixed_codes quiet_world (after_download quiet_world) mixed_mapper
           mixed_tar "us" mixed_us_text "10.0.0.5/24"
           (ipaddress.mk_network 167772160 4294967040 24)).
  - exact mixed_build.
  - reflexivity.
  - left. reflexivity.
  - reflexivity.
  - left. vm_compute. reflexivity.
  - vm_compute. reflexivity.
Defined.

Lemma X6_witness :
  exists zones code decoded c n,
    country_zones mixed_mapper = Some zones /\
    In code mixed_codes /\
    getmember zones (zone_member code) = Ok (RegularFile (Some decoded)) /\
    In c (str.split newline (str.strip decoded)) /\
    ipaddress.IPv4Network (str.strip c) false = Ok n /\
    (167772160, ipaddress.mk_network 167772160 4294901760 16, "CA")
    = (ipaddress.network_address n, n, str.ascii_upper code).
Proof.
  apply (X6_every_entry_has_a_source_line str.ascii_upper (fun _ => Ok mixed_tar)
           mixed_codes quiet_world (after_download quiet_world) mixed_mapper).
  - exact mixed_build.
  - right. right. left. reflexivity.
Defined.

Lemma X7_witness :
  filter (fun e => start_of e =? 167772160) (NETWORK_MAP mixed_mapper)
  = [(167772160, ipaddress.mk_network 167772160 4294967040 24, "US");
     (167772160, ipaddress.mk_network 167772160 4278190080 8, "US");
     (167772160, ipaddress.mk_network 167772160 4294901760 16, "CA")].
Proof.
  rewrite (X7_equal_starts_keep_load_order str.ascii_upper (fun _ => Ok mixed_tar)
             mixed_codes quiet_world (after_download quiet_world) mixed_mapper
             167772160 mixed_build).
  vm_compute. reflexivity.
Defined.

Lemma X9_witness :
  CountryCidrMapper_init str.ascii_upper (fun _ => Ok broken_tar)
    (["us"] ++ "ca" :: ["mx"]) quiet_world
  = (Raise AttributeError, after_download quiet_world).
Proof.
  assert (Hbefore : forall c, In c ["us"] -> missing_or_readable broken_tar c).
  { intros c [<- | []]. right. exists "1.0.0.0/24". reflexivity. }
  apply (proj1 (X9_unreadable_member_aborts_build str.ascii_upper
                  (fun _ => Ok broken_tar) ["us"] ["mx"] "ca" quiet_world
                  (after_download quiet_world) (mk_Response 200 "" "") broken_tar
                  eq_refl eq_refl Hbefore)).
  reflexivity.
Defined.

Lemma X10_witness :
  CountryCidrMapper_init str.ascii_upper (fun _ => Ok scenario_tar)
    scenario_codes failing_world
  = (Raise (RequestException "ConnectionError"),
     requested failing_world [all_zones_url; all_zones_url; all_zones_url]).
Proof.
  apply (proj1 (X10_build_propagates_download_errors str.ascii_upper
                  (fun _ => Ok scenario_tar) scenario_codes)
           failing_world
           (requested failing_world [all_zones_url])
           (requested failing_world [all_zones_url; all_zones_url])
           (requested failing_world [all_zones_url; all_zones_url; all_zones_url])
           (RequestException "ConnectionError")
           (RequestException "ConnectionError")
           (RequestException "ConnectionError")); reflexivity.
Defined.

(* ================================================================== *)
(** ** Which lines can be loaded                                       *)
(* ================================================================== *)

Section LineCharacters.

Import ipaddress.

Lemma forallb_impl (P Q : ascii -> bool) (s : string) :
  (forall c, P c = true -> Q c = true) ->
  str.forallb P s = true -> str.forallb Q s = true.
Proof.
  intros HPQ. induction s as [| c s IH]; cbn [str.forallb]; [reflexivity |].
  intros H. apply andb_prop in H. destruct H as [Hc Hs].
  rewrite (HPQ c Hc), (IH Hs). reflexivity.
Qed.

Lemma forallb_contains (P : ascii -> bool) (ch : ascii) (s : string) :
  str.forallb P s = true -> str.contains ch s = true -> P ch = true.
Proof.
  induction s as [| c s IH]; cbn [str.forallb str.contains]; [discriminate |].
  intros H Hc. apply andb_prop in H. destruct H as [Hpc Hs].
  apply orb_prop in Hc. destruct Hc as [Hc | Hc]; [| auto].
  apply Ascii.eqb_eq in Hc. congruence.
Qed.

(** A string is made of the characters of its pieces and of separators. *)
Lemma split_forallb (P : ascii -> bool) (sep : ascii) (s : string) :
  P sep = true ->
  Forall (fun piece => str.forallb P piece = true) (str.split sep s) ->
  str.forallb P s = true.
Proof.
  intros Hsep. induction s as [| c s IH]; cbn [str.split str.forallb]; [reflexivity |].
  destruct (Ascii.eqb_spec c sep) as [-> | Hne].
  - intros H. inversion H; subst. rewrite Hsep. cbn. auto.
  - destruct (str.split sep s) as [| h t] eqn:E.
    + intros H. inversion H as [| ? ? Hc _]; subst.
      cbn [str.forallb] in Hc. apply andb_prop in Hc. destruct Hc as [-> _].
      cbn. apply IH. constructor.
    + intros H. inversion H as [| ? ? Hc Ht]; subst.
      cbn [str.forallb] in Hc. apply andb_prop in Hc. destruct Hc as [-> Hh].
      cbn. apply IH. constructor; assumption.
Qed.

Lemma parse_octet_digits (s : string) (v : Z) :
  parse_octet s = Ok v -> str.forallb str.is_ascii_digit s = true.
Proof.
  unfold parse_octet. destruct (str.is_empty s); [discriminate |].
  destruct (str.isascii_isdigit s) eqn:Hd; [| discriminate].
  intros _. unfold str.isascii_isdigit in Hd. apply andb_prop in Hd. tauto.
Qed.

Lemma ip4_int_from_string_chars (s : string) (ip : Z) :
  ip4_int_from_string s = Ok ip -> str.forallb digit_or_dot s = true.
Proof.
  unfold ip4_int_from_string. destruct (str.is_empty s); [discriminate |].
  destruct (negb _); [discriminate |].
  destruct (mapM parse_octet (str.split "." s)) as [bs |] eqn:Ebs; [| discriminate].
  intros _. apply mapM_Ok in Ebs.
  apply (split_forallb digit_or_dot "."); [reflexivity |].
  induction Ebs as [| o b os bs' Ho _ IH]; constructor; [| exact IH].
  apply (forallb_impl str.is_ascii_digit); [| eapply parse_octet_digits; exact Ho].
  intros c Hc. unfold digit_or_dot. rewrite Hc. reflexivity.
Qed.

Lemma make_netmask_chars (m : string) (nm q : Z) :
  make_netmask (Some m) = Ok (nm, q) -> str.forallb digit_or_dot m = true.
Proof.
  unfold make_netmask. intros E. apply rbind_Ok in E. destruct E as [q' [Eq _]].
  unfold try_except in Eq.
  destruct (prefix_from_prefix_string m) as [q0 | e] eqn:Eps.
  - unfold prefix_from_prefix_string in Eps.
    destruct (str.isascii_isdigit m) eqn:Hd; [| discriminate].
    unfold str.isascii_isdigit in Hd. apply andb_prop in Hd. destruct Hd as [_ Hd].
    apply (forallb_impl str.is_ascii_digit); [| exact Hd].
    intros c Hc. unfold digit_or_dot. rewrite Hc. reflexivity.
  - destruct e; try discriminate.
    unfold prefix_from_ip_string in Eq.
    destruct (ip4_int_from_string m) as [n |] eqn:E4; [| discriminate].
    eapply ip4_int_from_string_chars. exact E4.
Qed.

(** A text that [IPv4Network] accepts consists of digits, dots and
    slashes. *)
Lemma IPv4Network_chars (cidr : string) (strict : bool) (n : network) :
  IPv4Network cidr strict = Ok n -> str.forallb cidr_char cidr = true.
Proof.
  unfold IPv4Network. intros E.
  apply rbind_Ok in E. destruct E as [[addr mask] [Hsplit E]].
  apply rbind_Ok in E. destruct E as [packed [Hpacked E]].
  apply rbind_Ok in E. destruct E as [[nm q] [Hmask _]].
  assert (Haddr : str.forallb cidr_char addr = true).
  { unfold IPv4Address in Hpacked. destruct (str.contains "/" addr); [discriminate |].
    apply (forallb_impl digit_or_dot); [| eapply ip4_int_from_string_chars; eassumption].
    intros c Hc. unfold cidr_char. unfold digit_or_dot in Hc. rewrite Hc. reflexivity. }
  apply (split_forallb cidr_char "/"); [reflexivity |].
  unfold split_addr_prefix in Hsplit.
  destruct (str.split "/" cidr) as [| a [| m [| x rest]]]; try discriminate.
  - apply Ok_inj in Hsplit. injection Hsplit as -> _. repeat constructor. exact Haddr.
  - apply Ok_inj in Hsplit. injection Hsplit as -> <-.
    repeat constructor; [exact Haddr |].
    apply (forallb_impl digit_or_dot); [| eapply make_netmask_chars; eassumption].
    intros c Hc. unfold cidr_char. unfold digit_or_dot in Hc. rewrite Hc. reflexivity.
Qed.

Lemma contains_lstrip (ch : ascii) (s : string) :
  str.isspace ch = false -> str.contains ch s = true ->
  str.contains ch (str.lstrip s) = true.
Proof.
  intros Hch. induction s as [| c s IH]; cbn [str.lstrip]; [auto |].
  destruct (str.isspace c) eqn:Hc; [| auto].
  cbn [str.contains]. intros H. apply orb_prop in H. destruct H as [H | H]; [| auto].
  apply Ascii.eqb_eq in H. congruence.
Qed.

Lemma contains_rstrip (ch : ascii) (s : string) :
  str.isspace ch = false -> str.contains ch s = true ->
  str.contains ch (str.rstrip s) = true.
Proof.
  intros Hch. induction s as [| c s IH]; cbn [str.rstrip]; [auto |].
  cbn [str.contains]. intros H. apply orb_prop in H.
  destruct (str.isspace c && str.is_empty (str.rstrip s)) eqn:Hcut.
  - exfalso. apply andb_prop in Hcut. destruct Hcut as [Hc He].
    destruct H as [H | H].
    + apply Ascii.eqb_eq in H. congruence.
    + apply IH in H. destruct (str.rstrip s); discriminate.
  - cbn [str.contains]. destruct H as [-> | H]; [reflexivity |].
    rewrite (IH H). apply orb_true_r.
Qed.

(** X8: a zone-file line that contains a character other than a digit, a
    dot, a slash or white space adds no entry; in particular no IPv6 CIDR
    (which contains a colon) is ever loaded. *)
Theorem X8_foreign_character_line_adds_nothing
  (str_upper : string -> string) (code : string) (acc : list entry)
  (c : string) (ch : ascii) :
  str.contains ch c = true ->
  str.isspace ch = false ->
  cidr_char ch = false ->
  add_cidr str_upper code acc c = acc.
Proof.
  intros Hin Hsp Hch. unfold add_cidr.
  destruct (str.is_empty (str.strip c)); [reflexivity |].
  destruct (IPv4Network (str.strip c) false) as [n |] eqn:En; [| reflexivity].
  exfalso. apply IPv4Network_chars in En.
  assert (Hc : str.contains ch (str.strip c) = true)
    by (unfold str.strip; apply contains_rstrip, contains_lstrip; assumption).
  rewrite (forallb_contains _ _ _ En Hc) in Hch. discriminate.
Qed.

End LineCharacters.

Lemma X8_witness :
  add_cidr str.ascii_upper "us"
    [(167772160, ipaddress.mk_network 167772160 4294967040 24, "US")]
    "2001:db8::/32"
  = [(167772160, ipaddress.mk_network 167772160 4294967040 24, "US")].
Proof.
  apply (X8_foreign_character_line_adds_nothing str.ascii_upper "us" _
           "2001:db8::/32" ":"); reflexivity.
Defined.

(* ================================================================== *)
(** ** Further properties of the country list and of the script's start *)
(* ================================================================== *)

Section CountryList.

Variable str_upper : string -> string.
Variable str_lower : string -> string.
Variable DictReader : string -> reader.
Variable TarFile_open : string -> result TarFile.

Lemma codes_of_rows_Ok (rows : list row) :
  (forall r, In r rows -> row_get r "Code" <> Some None) ->
  codes_of_rows str_lower (map Ok rows)
  = Ok (flat_map (row_codes str_lower) rows).
Proof.
  induction rows as [| r rows IH]; intros Hall; cbn [map codes_of_rows flat_map].
  - reflexivity.
  - assert (IH' := IH (fun r' Hr' => Hall r' (or_intror Hr'))).
    unfold row_codes at 1.
    destruct (row_get r "Code") as [[v |] |] eqn:Er.
    + rewrite IH'. reflexivity.
    + exfalso. apply (Hall r); [left; reflexivity | exact Er].
    + exact IH'.
Qed.

(** X11: when the download succeeds (at any of the three attempts) and the
    reader yields its rows without error, none with an empty [Code] value,
    the result is, in row order, the lower-cased [Code] of every row that
    has the field; rows without it are skipped. *)
Theorem X11_country_codes_of_rows
  (w0 w1 : World) (response : Response) (rows : list row) :
  with_retry (fetch country_list_url) w0 = (Ok response, w1) ->
  DictReader (text response) = map Ok rows ->
  (forall r, In r rows -> row_get r "Code" <> Some None) ->
  get_iso_country_codes str_lower DictReader w0
  = (Ok (flat_map (row_codes str_lower) rows), w1).
Proof.
  intros Hfetch Hrows Hall.
  unfold get_iso_country_codes, try_exceptM, mbind, lift, ret.
  rewrite Hfetch, Hrows, (codes_of_rows_Ok rows Hall). reflexivity.
Qed.

Lemma reader_error_is_raised
  (w0 w1 : World) (response : Response) (e : exn) :
  with_retry (fetch country_list_url) w0 = (Ok response, w1) ->
  codes_of_rows str_lower (DictReader (text response)) = Raise e ->
  isinstance_RequestException e = false ->
  get_iso_country_codes str_lower DictReader w0 = (Raise e, w1).
Proof.
  intros Hfetch Hrows Hcls.
  unfold get_iso_country_codes, try_exceptM, mbind, lift.
  rewrite Hfetch, Hrows, Hcls. reflexivity.
Qed.

(** X12: only a [RequestException] is turned into the empty list: a third
    failure of another class is raised to the caller, and so is an error of
    another class met while the rows are read. *)
Theorem X12_other_errors_are_raised :
  (forall (w0 w1 w2 w3 : World) (e1 e2 e3 : exn),
      fetch country_list_url w0 = (Raise e1, w1) ->
      fetch country_list_url w1 = (Raise e2, w2) ->
      fetch country_list_url w2 = (Raise e3, w3) ->
      isinstance_RequestException e3 = false ->
      get_iso_country_codes str_lower DictReader w0 = (Raise e3, w3)) /\
  (forall (w0 w1 : World) (response : Response) (e : exn),
      with_retry (fetch country_list_url) w0 = (Ok response, w1) ->
      codes_of_rows str_lower (DictReader (text response)) = Raise e ->
      isinstance_RequestException e = false ->
      get_iso_country_codes str_lower DictReader w0 = (Raise e, w1)).
Proof.
  split.
  - intros w0 w1 w2 w3 e1 e2 e3 H0 H1 H2 Hcls.
    unfold get_iso_country_codes, try_exceptM, mbind.
    rewrite (with_retry_exhausted _ _ _ _ _ _ _ _ H0 H1 H2), Hcls. reflexivity.
  - apply reader_error_is_raised.
Qed.

(** X13: a row that has the [Code] field with no value (a line shorter
    than the header) makes [get_iso_country_codes] raise [AttributeError],
    the reader having yielded the rows before it without error. *)
Theorem X13_short_row_raises
  (w0 w1 : World) (response : Response)
  (before : list row) (r : row) (rest : reader) :
  with_retry (fetch country_list_url) w0 = (Ok response, w1) ->
  DictReader (text response) = map Ok before ++ Ok r :: rest ->
  row_get r "Code" = Some None ->
  get_iso_country_codes str_lower DictReader w0 = (Raise AttributeError, w1).
Proof.
  intros Hfetch Hrows Hr.
  apply (reader_error_is_raised w0 w1 response AttributeError Hfetch);
    [| reflexivity].
  rewrite Hrows. clear Hrows.
  induction before as [| r0 before IH]; cbn [map app codes_of_rows].
  - rewrite Hr. reflexivity.
  - rewrite IH. destruct (row_get r0 "Code") as [[v |] |]; reflexivity.
Qed.

(** X14: the script stops with [ParameterError] when the country list comes
    back empty, in particular after three failed downloads, and then sends
    no request for the archive; with a non-empty list it goes on to build
    the mapper from that list. *)
Theorem X14_script_start :
  (forall (w0 w1 : World),
      get_iso_country_codes str_lower DictReader w0 = (Ok [], w1) ->
      main_build str_upper str_lower DictReader TarFile_open w0
      = (Raise (OtherException "ParameterError"), w1)) /\
  (forall (w0 w1 w2 w3 : World) (e1 e2 : exn) (detail : string),
      fetch country_list_url w0 = (Raise e1, w1) ->
      fetch country_list_url w1 = (Raise e2, w2) ->
      fetch country_list_url w2 = (Raise (RequestException detail), w3) ->
      main_build str_upper str_lower DictReader TarFile_open w0
      = (Raise (OtherException "ParameterError"), w3) /\
      sent w3 = sent w0 ++ [country_list_url; country_list_url; country_list_url]) /\
  (forall (w0 w1 : World) (code : string) (codes : list string),
      get_iso_country_codes str_lower DictReader w0 = (Ok (code :: codes), w1) ->
      main_build str_upper str_lower DictReader TarFile_open w0
      = CountryCidrMapper_init str_upper TarFile_open (code :: codes) w1).
Proof.
  split; [| split].
  - intros w0 w1 H. unfold main_build, mbind. rewrite H. reflexivity.
  - intros w0 w1 w2 w3 e1 e2 detail H0 H1 H2. split.
    + unfold main_build, mbind, get_iso_country_codes, try_exceptM, mbind.
      rewrite (with_retry_exhausted _ _ _ _ _ _ _ _ H0 H1 H2). reflexivity.
    + apply fetch_sent in H0, H1, H2. rewrite H2, H1, H0, <- !app_assoc.
      reflexivity.
  - intros w0 w1 code codes H. unfold main_build, mbind. rewrite H. reflexivity.
Qed.

End CountryList.

Lemma X11_witness :
  get_iso_country_codes str.ascii_lower (fun _ => sample_reader) flaky_world
  = (Ok ["us"; "ca"],
     requested flaky_world [country_list_url; country_list_url; country_list_url]).
Proof.
  apply (X11_country_codes_of_rows str.ascii_lower (fun _ => sample_reader)
           flaky_world
           (requested flaky_world
              [country_list_url; country_list_url; country_list_url])
           (mk_Response 200 "Code" "")
           [[("Code", Some "US"); ("Name", Some "United States")];
            [("Name", Some "Nowhere")];
            [("Code", Some "CA"); ("Name", Some "Canada")]]).
  - vm_compute. reflexivity.
  - reflexivity.
  - intros r [<- | [<- | [<- | []]]]; discriminate.
Defined.

Lemma X12_witness :
  get_iso_country_codes str.ascii_lower (fun _ => sample_reader) crashing_world
  = (Raise (OtherException "MemoryError"),
     requested crashing_world
       [country_list_url; country_list_url; country_list_url]).
Proof.
  apply (proj1 (X12_other_errors_are_raised str.ascii_lower (fun _ => sample_reader))
           crashing_world
           (requested crashing_world [country_list_url])
           (requested crashing_world [country_list_url; country_list_url])
           (requested crashing_world
              [country_list_url; country_list_url; country_list_url])
           (OtherException "MemoryError") (OtherException "MemoryError")
           (OtherException "MemoryError")); reflexivity.
Defined.

Lemma X13_witness :
  get_iso_country_codes str.ascii_lower
    (fun _ => [Ok [("Code", Some "US")]; Ok [("Code", None)]]) quiet_world
  = (Raise AttributeError, requested quiet_world [country_list_url]).
Proof.
  apply (X13_short_row_raises str.ascii_lower
           (fun _ => [Ok [("Code", Some "US")]; Ok [("Code", None)]])
           quiet_world (requested quiet_world [country_list_url])
           (mk_Response 200 "" "") [[("Code", Some "US")]] [("Code", None)] []);
    reflexivity.
Defined.

Lemma X14_witness :
  main_build str.ascii_upper str.ascii_lower (fun _ => sample_reader)
    (fun _ => Ok scenario_tar) failing_world
  = (Raise (OtherException "ParameterError"),
     requested failing_world
       [country_list_url; country_list_url; country_list_url]).
Proof.
  apply (proj1 (proj2 (X14_script_start str.ascii_upper str.ascii_lower
                         (fun _ => sample_reader) (fun _ => Ok scenario_tar)))
           failing_world
           (requested failing_world [country_list_url])
           (requested failing_world [country_list_url; country_list_url])
           (requested failing_world
              [country_list_url; country_list_url; country_list_url])
           (RequestException "ConnectionError")
           (RequestException "ConnectionError") "ConnectionError");
    reflexivity.
Defined.

(* ================================================================== *)
(** ** The number of requests of a download                            *)
(* ================================================================== *)

Lemma fetch_Ok_status (url : string) (w w' : World) (resp : Response) :
  fetch url w = (Ok resp, w') ->
  (400 <=? status_code resp) && (status_code resp <? 600) = false.
Proof.
  unfold fetch, mbind, get, lift, ret, raise_for_status.
  destruct (oracle w (List.length (sent w)) url) as [resp0 | e]; [| discriminate].
  destruct ((400 <=? status_code resp0) && (status_code resp0 <? 600)) eqn:Hst;
    [discriminate |].
  intros E. injection E as <- _. exact Hst.
Qed.

(** X15: a download loop sends at least one and at most three requests,
    all to its URL, three when it raises; and a response it returns has a
    status outside 400..599. *)
Theorem X15_download_requests_and_status
  (url : string) (w w' : World) (r : result Response) :
  with_retry (fetch url) w = (r, w') ->
  exists n, (1 <= n <= 3)%nat /\ sent w' = sent w ++ repeat url n /\
    match r with
    | Raise _ => n = 3%nat
    | Ok resp => (400 <=? status_code resp) && (status_code resp <? 600) = false
    end.
Proof.
  destruct (fetch url w) as [[a1 | e1] w1] eqn:H0.
  { rewrite (with_retry_first _ _ _ _ H0). intros E. injection E as <- <-.
    exists 1%nat. split; [lia |]. split; [eapply fetch_sent; exact H0 |].
    eapply fetch_Ok_status. exact H0. }
  destruct (fetch url w1) as [[a2 | e2] w2] eqn:H1.
  { rewrite (with_retry_second _ _ _ _ _ _ H0 H1). intros E. injection E as <- <-.
    exists 2%nat. split; [lia |]. split; [| eapply fetch_Ok_status; exact H1].
    apply fetch_sent in H0, H1. rewrite H1, H0, <- app_assoc. reflexivity. }
  destruct (fetch url w2) as [[a3 | e3] w3] eqn:H2.
  { rewrite (with_retry_third _ _ _ _ _ _ _ _ H0 H1 H2). intros E.
    injection E as <- <-.
    exists 3%nat. split; [lia |]. split; [| eapply fetch_Ok_status; exact H2].
    apply fetch_sent in H0, H1, H2. rewrite H2, H1, H0, <- !app_assoc.
    reflexivity. }
  rewrite (with_retry_exhausted _ _ _ _ _ _ _ _ H0 H1 H2). intros E.
  injection E as <- <-.
  exists 3%nat. split; [lia |]. split; [| reflexivity].
  apply fetch_sent in H0, H1, H2. rewrite H2, H1, H0, <- !app_assoc.
  reflexivity.
Qed.

Lemma X15_witness :
  exists n, (1 <= n <= 3)%nat /\
    sent (requested flaky_world ["u"; "u"; "u"]) = sent flaky_world ++ repeat "u" n /\
    (400 <=? 200) && (200 <? 600) = false.
Proof.
  apply (X15_download_requests_and_status "u" flaky_world
           (requested flaky_world ["u"; "u"; "u"])
           (Ok (mk_Response 200 "Code" ""))).
  vm_compute. reflexivity.
Defined.

(* ================================================================== *)
(** ** The counters of the report                                      *)
(* ================================================================== *)

Lemma counter_total_incr {K} (eqb : K -> K -> bool) (k : K) (c : Counter K) :
  counter_total (counter_incr eqb k c) = counter_total c + 1.
Proof.
  induction c as [| [k' n] c IH]; cbn [counter_incr counter_total fold_right snd].
  - lia.
  - destruct (eqb k' k); cbn [counter_total fold_right snd].
    + fold (counter_total c). lia.
    + fold (counter_total (counter_incr eqb k c)) (counter_total c). lia.
Qed.

Lemma counter_get_incr (k k' : string) (c : Counter string) :
  counter_get String.eqb (counter_incr String.eqb k c) k'
  = if String.eqb k k' then counter_get String.eqb c k' + 1
    else counter_get String.eqb c k'.
Proof.
  induction c as [| [k0 n] c IH]; cbn [counter_incr counter_get].
  - destruct (String.eqb k k'); reflexivity.
  - destruct (String.eqb_spec k0 k) as [-> | Hne]; cbn [counter_get].
    + destruct (String.eqb k k'); reflexivity.
    + rewrite IH. destruct (String.eqb_spec k0 k') as [-> | Hne'].
      * destruct (String.eqb_spec k k'); [congruence | reflexivity].
      * reflexivity.
Qed.

Section LogFacts.

Variable datetime : Type.
Variable dt_ltb : datetime -> datetime -> bool.
Variable dt_eqb : datetime -> datetime -> bool.
Variable asc2dt : string -> result datetime.
Variable replace_second0 : datetime -> datetime.
Variable APACHE_match : string -> option (string * string).
Variable start_window end_window : datetime.
Variable calc_time_hist : bool.

Local Notation "'step'" :=
  (process_line datetime dt_ltb dt_eqb asc2dt replace_second0 APACHE_match
     start_window end_window calc_time_hist).
Local Notation "'run'" :=
  (process_lines datetime dt_ltb dt_eqb asc2dt replace_second0 APACHE_match
     start_window end_window calc_time_hist).
Local Notation "'is_counted'" :=
  (counted datetime dt_ltb asc2dt APACHE_match start_window end_window).
Local Notation "'is_unmatched'" := (unmatched APACHE_match).

(** What one line does to the state. *)
Lemma process_line_Ok (st st' : LogState datetime) (line : string) :
  step st line = Ok st' ->
  (is_counted line = false /\
   st' = mk_LogState datetime (total_requests st) (ip_counter st)
           (country_counter st) (unknown_counter st) (time_hist st)
           (body st ++ (if is_unmatched line then [unmatched_message line] else []))
           (cidr_mapper st))
  \/
  (is_counted line = true /\ is_unmatched line = false /\
   exists ip dt t c,
     APACHE_match line = Some (ip, dt) /\ asc2dt dt = Ok t /\
     resolve (cidr_mapper st) ip = Ok c /\
     st' = mk_LogState datetime (total_requests st + 1)
             (counter_incr String.eqb ip (ip_counter st))
             (counter_incr String.eqb c (country_counter st))
             (if String.eqb c "UNKNOWN"
              then counter_incr String.eqb ip (unknown_counter st)
              else unknown_counter st)
             (if calc_time_hist
              then counter_incr dt_eqb (replace_second0 t) (time_hist st)
              else time_hist st)
             (body st) (cidr_mapper st)).
Proof.
  unfold process_line, counted, unmatched.
  destruct (APACHE_match line) as [[ip dt] |].
  - destruct (asc2dt dt) as [t |] eqn:Ht; cbn [rbind]; [| discriminate].
    destruct (dt_ltb t start_window || dt_ltb end_window t); cbn [negb].
    + intros E. apply Ok_inj in E. subst st'. left. split; [reflexivity |].
      rewrite app_nil_r. destruct st; reflexivity.
    + change (get_country_from_ip (cidr_mapper st) ip)
        with (resolve (cidr_mapper st) ip, cidr_mapper st).
      cbv beta iota.
      destruct (resolve (cidr_mapper st) ip) as [c |] eqn:Hc; cbn [rbind];
        [| discriminate].
      intros E. apply Ok_inj in E. subst st'. right.
      split; [reflexivity |]. split; [reflexivity |].
      exists ip, dt, t, c. repeat split; auto.
  - intros E. apply Ok_inj in E. subst st'. left. split; reflexivity.
Qed.

(** What a run of lines does to the totals, the text and the mapper. *)
Lemma process_lines_totals (lines : list string) (st st' : LogState datetime) :
  run st lines = Ok st' ->
  let n := Z.of_nat (List.length (filter is_counted lines)) in
  cidr_mapper st' = cidr_mapper st /\
  total_requests st' = total_requests st + n /\
  counter_total (ip_counter st') = counter_total (ip_counter st) + n /\
  counter_total (country_counter st') = counter_total (country_counter st) + n /\
  counter_total (unknown_counter st')
    - counter_get String.eqb (country_counter st') "UNKNOWN"
  = counter_total (unknown_counter st)
    - counter_get String.eqb (country_counter st) "UNKNOWN" /\
  counter_total (time_hist st')
  = counter_total (time_hist st) + (if calc_time_hist then n else 0) /\
  body st' = body st ++ map unmatched_message (filter is_unmatched lines).
Proof.
  revert st. induction lines as [| line lines IH]; intros st; cbn [process_lines].
  - intros E. apply Ok_inj in E. subst st'. cbn.
    rewrite app_nil_r. destruct calc_time_hist; repeat split; lia.
  - intros E. apply rbind_Ok in E. destruct E as [st1 [Hstep Hrest]].
    specialize (IH st1 Hrest). cbv zeta in IH.
    destruct IH as (Hm & Ht & Hi & Hc & Hu & Hh & Hb).
    cbv zeta. cbn [filter].
    destruct (process_line_Ok _ _ _ Hstep)
      as [[Hcnt ->] | (Hcnt & Hun & ip & dt & t & c & _ & _ & _ & ->)];
      rewrite Hcnt; cbn [cidr_mapper total_requests ip_counter country_counter
                           unknown_counter time_hist body] in *.
    + repeat (split; [assumption |]).
      rewrite Hb, <- app_assoc. f_equal.
      destruct (is_unmatched line); reflexivity.
    + rewrite Hun. cbn [List.length].
      rewrite !counter_total_incr in *.
      rewrite counter_get_incr in Hu.
      split; [assumption |]. split; [lia |]. split; [lia |]. split; [lia |].
      split; [| split; [| assumption]].
      * destruct (String.eqb c "UNKNOWN");
          [rewrite counter_total_incr in Hu |]; lia.
      * destruct calc_time_hist; [rewrite counter_total_incr in Hh |]; lia.
Qed.

(** X16: after the log loop, [total_requests] is the number of lines that
    match and whose time lies in the window; the counts of [ip_counter] and
    of [country_counter] each add up to it, those of [unknown_counter] add
    up to the count of ["UNKNOWN"] in [country_counter], and those of the
    histogram add up to it when the histogram is asked for. *)
Theorem X16_counters_add_up
  (mapper : CountryCidrMapper) (lines : list string) (st : LogState datetime) :
  run (log_start datetime mapper) lines = Ok st ->
  total_requests st = Z.of_nat (List.length (filter is_counted lines)) /\
  counter_total (ip_counter st) = total_requests st /\
  counter_total (country_counter st) = total_requests st /\
  counter_total (unknown_counter st)
  = counter_get String.eqb (country_counter st) "UNKNOWN" /\
  counter_total (time_hist st) = (if calc_time_hist then total_requests st else 0).
Proof.
  intros Hrun. apply process_lines_totals in Hrun. cbv zeta in Hrun.
  cbn [log_start cidr_mapper total_requests ip_counter country_counter
         unknown_counter time_hist body counter_total counter_get fold_right] in Hrun.
  destruct Hrun as (_ & Ht & Hi & Hc & Hu & Hh & _).
  destruct calc_time_hist; repeat split; lia.
Qed.

(** X17: the loop reports every line that does not match, once and in
    order, and writes nothing else; it leaves the mapper as it was. *)
Theorem X17_unmatched_lines_are_reported
  (mapper : CountryCidrMapper) (lines : list string) (st : LogState datetime) :
  run (log_start datetime mapper) lines = Ok st ->
  body st = map unmatched_message (filter is_unmatched lines) /\
  cidr_mapper st = mapper.
Proof.
  intros Hrun. apply process_lines_totals in Hrun. cbv zeta in Hrun.
  destruct Hrun as (Hm & _ & _ & _ & _ & _ & Hb). split; assumption.
Qed.

Lemma process_lines_unknown (mapper : CountryCidrMapper) (lines : list string)
  (st st' : LogState datetime) :
  run st lines = Ok st' ->
  cidr_mapper st = mapper ->
  (forall ip, counter_get String.eqb (unknown_counter st) ip
              = if resolves_unknown mapper ip
                then counter_get String.eqb (ip_counter st) ip else 0) ->
  forall ip, counter_get String.eqb (unknown_counter st') ip
             = if resolves_unknown mapper ip
               then counter_get String.eqb (ip_counter st') ip else 0.
Proof.
  revert st. induction lines as [| line lines IH]; intros st; cbn [process_lines].
  - intros E _ Hinv. apply Ok_inj in E. subst st'. exact Hinv.
  - intros E Hm Hinv. apply rbind_Ok in E. destruct E as [st1 [Hstep Hrest]].
    apply (IH st1 Hrest);
      destruct (process_line_Ok _ _ _ Hstep)
        as [[_ ->] | (_ & _ & ip0 & dt & t & c & _ & _ & Hres & ->)];
      cbn [cidr_mapper unknown_counter ip_counter]; try assumption.
    intros ip. rewrite counter_get_incr. rewrite Hm in Hres.
    destruct (String.eqb c "UNKNOWN") eqn:Hc.
    + rewrite counter_get_incr, Hinv.
      destruct (String.eqb_spec ip0 ip) as [-> | Hne]; [| reflexivity].
      unfold resolves_unknown. rewrite Hres, Hc. reflexivity.
    + rewrite Hinv.
      destruct (String.eqb_spec ip0 ip) as [-> | Hne]; [| reflexivity].
      unfold resolves_unknown. rewrite Hres, Hc. reflexivity.
Qed.

(** X18: after the log loop, an address has in [unknown_counter] the same
    count as in [ip_counter] when the mapper answers ["UNKNOWN"] for it, and
    no count otherwise. *)
Theorem X18_unknown_counts_match_ip_counts
  (mapper : CountryCidrMapper) (lines : list string) (st : LogState datetime)
  (ip : string) :
  run (log_start datetime mapper) lines = Ok st ->
  counter_get String.eqb (unknown_counter st) ip
  = if resolves_unknown mapper ip
    then counter_get String.eqb (ip_counter st) ip else 0.
Proof.
  intros Hrun.
  apply (process_lines_unknown mapper lines (log_start datetime mapper) st Hrun);
    [reflexivity |].
  intros ip'. cbn. destruct (resolves_unknown mapper ip'); reflexivity.
Qed.

(** X19: no address text can stop the log loop: when the time of every
    matching line parses, the loop runs to its end. *)
Theorem X19_only_a_bad_time_stops_the_loop
  (mapper : CountryCidrMapper) (lines : list string) :
  (forall line ip dt, In line lines -> APACHE_match line = Some (ip, dt) ->
                      exists t, asc2dt dt = Ok t) ->
  exists st, run (log_start datetime mapper) lines = Ok st.
Proof.
  generalize (log_start datetime mapper) as st.
  induction lines as [| line lines IH]; intros st Htimes; cbn [process_lines].
  - eauto.
  - assert (Hstep : exists st1, step st line = Ok st1).
    { unfold process_line.
      destruct (APACHE_match line) as [[ip dt] |] eqn:Hm; [| eauto].
      destruct (Htimes line ip dt (or_introl eq_refl) Hm) as [t ->]. cbn [rbind].
      destruct (dt_ltb t start_window || dt_ltb end_window t); [eauto |].
      change (get_country_from_ip (cidr_mapper st) ip)
        with (resolve (cidr_mapper st) ip, cidr_mapper st).
      cbv beta iota.
      assert (Hres : exists c, resolve (cidr_mapper st) ip = Ok c).
      { destruct (ipaddress.ip_address ip) as [a | e] eqn:E.
        - destruct (resolve_parsed_total (cidr_mapper st) ip a E)
            as (i & r & _ & _ & _ & ->). eauto.
        - exists "INVALID IP". unfold resolve.
          rewrite unparseable_invalid_ip; [reflexivity | congruence]. }
      destruct Hres as [c ->]. cbn [rbind]. eauto. }
    destruct Hstep as [st1 ->]. cbn [rbind].
    apply IH. intros l ip dt Hl. apply Htimes. right. exact Hl.
Qed.

End LogFacts.

Lemma toy_run_Ok : toy_run toy_lines = Ok toy_state.
Proof. vm_compute. reflexivity. Qed.

Lemma X16_witness :
  total_requests toy_state = 4 /\
  counter_total (ip_counter toy_state) = 4 /\
  counter_total (country_counter toy_state) = 4 /\
  counter_total (unknown_counter toy_state) = 2 /\
  counter_total (time_hist toy_state) = 4.
Proof.
  destruct (X16_counters_add_up Z Z.ltb Z.eqb toy_asc2dt (fun t => 60 * (t / 60))
              toy_match 100 200 true scenario_mapper toy_lines toy_state toy_run_Ok)
    as (Ht & Hi & Hc & Hu & Hh).
  assert (E : total_requests toy_state = 4) by reflexivity.
  rewrite E in *. repeat split; assumption.
Defined.

Lemma X17_witness :
  body toy_state = ["Unmatched log line: no match here"] /\
  cidr_mapper toy_state = scenario_mapper.
Proof.
  destruct (X17_unmatched_lines_are_reported Z Z.ltb Z.eqb toy_asc2dt
              (fun t => 60 * (t / 60)) toy_match 100 200 true scenario_mapper
              toy_lines toy_state toy_run_Ok) as [Hb Hm].
  split; [rewrite Hb; reflexivity | exact Hm].
Defined.

Lemma X18_witness :
  counter_get String.eqb (unknown_counter toy_state) "3.0.0.1"
  = counter_get String.eqb (ip_counter toy_state) "3.0.0.1" /\
  counter_get String.eqb (unknown_counter toy_state) "1.0.0.5" = 0.
Proof.
  split.
  - rewrite (X18_unknown_counts_match_ip_counts Z Z.ltb Z.eqb toy_asc2dt
               (fun t => 60 * (t / 60)) toy_match 100 200 true scenario_mapper
               toy_lines toy_state "3.0.0.1" toy_run_Ok).
    reflexivity.
  - rewrite (X18_unknown_counts_match_ip_counts Z Z.ltb Z.eqb toy_asc2dt
               (fun t => 60 * (t / 60)) toy_match 100 200 true scenario_mapper
               toy_lines toy_state "1.0.0.5" toy_run_Ok).
    reflexivity.
Defined.

Lemma X19_witness :
  exists st, toy_run toy_lines = Ok st.
Proof.
  apply (X19_only_a_bad_time_stops_the_loop Z Z.ltb Z.eqb toy_asc2dt
           (fun t => 60 * (t / 60)) toy_match 100 200 true scenario_mapper toy_lines).
  intros line ip dt Hin Hm.
  repeat (destruct Hin as [<- | Hin];
          [vm_compute in Hm; try discriminate Hm;
           injection Hm as <- <-; eexists; vm_compute; reflexivity |]).
  destruct Hin.
Defined.

(* ================================================================== *)
(** ** The top-ten lists                                               *)
(* ================================================================== *)

Lemma insert_by_count_perm {K} (x : K * Z) (l : list (K * Z)) :
  Permutation (insert_by_count x l) (x :: l).
Proof.
  induction l as [| y l IH]; cbn [insert_by_count]; [reflexivity |].
  case_if; [reflexivity |]. rewrite IH. apply perm_swap.
Qed.

Lemma sorted_by_count_perm {K} (l : list (K * Z)) :
  Permutation (sorted_by_count l) l.
Proof.
  induction l as [| x l IH]; cbn [sorted_by_count fold_right]; [reflexivity |].
  rewrite insert_by_count_perm. constructor. exact IH.
Qed.

Lemma insert_by_count_sorted {K} (x : K * Z) (l : list (K * Z)) :
  StronglySorted ge_count l -> StronglySorted ge_count (insert_by_count x l).
Proof.
  induction l as [| y l IH]; cbn [insert_by_count]; intros Hs.
  - repeat constructor.
  - inversion Hs as [| ? ? Hl Hy]; subst.
    destruct (Z.leb_spec (snd y) (snd x)) as [Hle | Hgt].
    + constructor; [assumption |]. constructor; [exact Hle |].
      eapply Forall_impl; [| exact Hy].
      intros z Hz. unfold ge_count in *. lia.
    + constructor; [auto |].
      eapply Permutation_Forall; [symmetry; apply insert_by_count_perm |].
      constructor; [unfold ge_count; lia | assumption].
Qed.

Lemma sorted_by_count_sorted {K} (l : list (K * Z)) :
  StronglySorted ge_count (sorted_by_count l).
Proof.
  induction l as [| x l IH]; cbn [sorted_by_count fold_right].
  - constructor.
  - apply insert_by_count_sorted. exact IH.
Qed.

Lemma StronglySorted_app_inv {A} (R : A -> A -> Prop) (l1 l2 : list A) :
  StronglySorted R (l1 ++ l2) ->
  StronglySorted R l1 /\ forall x y, In x l1 -> In y l2 -> R x y.
Proof.
  induction l1 as [| a l1 IH]; cbn [app]; intros Hs.
  - split; [constructor | intros x y []].
  - inversion Hs as [| ? ? Hl Ha]; subst. destruct (IH Hl) as [Hs1 Hcross].
    rewrite Forall_forall in Ha. split.
    + constructor; [exact Hs1 |]. rewrite Forall_forall.
      intros z Hz. apply Ha. apply in_or_app. left. exact Hz.
    + intros x y [<- | Hx] Hy; [| auto]. apply Ha. apply in_or_app. right. exact Hy.
Qed.

(** X20: a top-[n] list of a counter ([most_common(10)] for the three
    lists of the report) has [min n (len)] items of the counter, in
    descending order of count, and every item left out has a count no
    greater than any item listed. *)
Theorem X20_most_common_is_the_top {K} (n : nat) (c : Counter K) :
  List.length (most_common n c) = Nat.min n (List.length c) /\
  StronglySorted ge_count (most_common n c) /\
  exists rest,
    Permutation (most_common n c ++ rest) c /\
    forall x y, In x (most_common n c) -> In y rest -> snd y <= snd x.
Proof.
  unfold most_common. split; [| split].
  - rewrite length_firstn.
    rewrite (Permutation_length (sorted_by_count_perm c)). reflexivity.
  - pose proof (sorted_by_count_sorted c) as Hs.
    rewrite <- (firstn_skipn n (sorted_by_count c)) in Hs.
    apply (StronglySorted_app_inv _ _ _ Hs).
  - exists (skipn n (sorted_by_count c)). split.
    + rewrite firstn_skipn. apply sorted_by_count_perm.
    + pose proof (sorted_by_count_sorted c) as Hs.
      rewrite <- (firstn_skipn n (sorted_by_count c)) in Hs.
      apply (StronglySorted_app_inv _ _ _ Hs).
Qed.

(* ================================================================== *)
(** ** Loaded ranges are nested or disjoint                            *)
(* ================================================================== *)

Lemma wf_network_aligned (n : ipaddress.network) :
  wf_network n ->
  ipaddress.network_address n
  = 2 ^ (32 - ipaddress.prefixlen n)
    * (ipaddress.network_address n / 2 ^ (32 - ipaddress.prefixlen n)).
Proof.
  intros (Hp & Hnm & Hna & Hcanon). rewrite Hnm in Hcanon.
  rewrite <- (land_netmask _ Hp _ Hna). symmetry. exact Hcanon.
Qed.

Lemma blocks_nested (n1 n2 : ipaddress.network) (x y : Z) :
  wf_network n1 -> wf_network n2 ->
  ipaddress.prefixlen n1 <= ipaddress.prefixlen n2 ->
  in_block n1 x -> in_block n2 x -> in_block n2 y -> in_block n1 y.
Proof.
  intros Hwf1 Hwf2 Hle.
  pose proof (wf_network_aligned n1 Hwf1) as Ha1.
  pose proof (wf_network_aligned n2 Hwf2) as Ha2.
  destruct Hwf1 as (Hp1 & _ & _ & _). destruct Hwf2 as (Hp2 & _ & _ & _).
  unfold in_block, end_address.
  set (p1 := ipaddress.prefixlen n1) in *. set (p2 := ipaddress.prefixlen n2) in *.
  assert (HH : 2 ^ (32 - p1) = 2 ^ (32 - p2) * 2 ^ (p2 - p1)).
  { rewrite <- Z.pow_add_r by lia. f_equal. lia. }
  assert (H2pos : 0 < 2 ^ (32 - p2)) by (apply Z.pow_pos_nonneg; lia).
  assert (Mpos : 0 < 2 ^ (p2 - p1)) by (apply Z.pow_pos_nonneg; lia).
  rewrite HH in *.
  set (H2 := 2 ^ (32 - p2)) in *. set (m := 2 ^ (p2 - p1)) in *.
  set (q1 := ipaddress.network_address n1 / (H2 * m)) in *.
  set (q2 := ipaddress.network_address n2 / H2) in *.
  rewrite Ha1, Ha2. intros Hx1 Hx2 Hy.
  assert (Hlo : m * q1 <= q2) by nia.
  assert (Hhi : q2 + 1 <= m * q1 + m) by nia.
  nia.
Qed.

(** X21: two ranges of a built index never overlap in part: when they share
    an address, the one with the longer prefix lies inside the other. *)
Theorem X21_loaded_ranges_nested_or_disjoint
  (str_upper : string -> string) (TarFile_open : string -> result TarFile)
  (codes : list string) (w w' : World) (self : CountryCidrMapper)
  (e1 e2 : entry) (x y : Z) :
  CountryCidrMapper_init str_upper TarFile_open codes w = (Ok self, w') ->
  In e1 (NETWORK_MAP self) -> In e2 (NETWORK_MAP self) ->
  ipaddress.prefixlen (network_of e1) <= ipaddress.prefixlen (network_of e2) ->
  in_block (network_of e1) x -> in_block (network_of e2) x ->
  in_block (network_of e2) y -> in_block (network_of e1) y.
Proof.
  intros Hinit H1 H2.
  pose proof (init_built _ _ _ _ _ _ Hinit) as [_ Hok].
  rewrite Forall_forall in Hok.
  apply blocks_nested; [apply (Hok e1 H1) | apply (Hok e2 H2)].
Qed.

Lemma X21_witness :
  in_block (ipaddress.mk_network 16777216 4278190080 8) 16908543.
Proof.
  apply (X21_loaded_ranges_nested_or_disjoint str.ascii_upper
           (fun _ => Ok overlap_tar) overlap_codes quiet_world
           (after_download quiet_world) overlap_mapper
           (16777216, ipaddress.mk_network 16777216 4278190080 8, "US")
           (16908288, ipaddress.mk_network 16908288 4294901760 16, "CA")
           16909060 16908543).
  - exact overlap_build.
  - left. reflexivity.
  - right. left. reflexivity.
  - cbn. lia.
  - unfold in_block, end_address; cbn; lia.
  - unfold in_block, end_address; cbn; lia.
  - unfold in_block, end_address; cbn; lia.
Defined.

(* ================================================================== *)
(** ** C5: non-strict CIDR parsing                                     *)
(* ================================================================== *)

(** C5: the builder parses each line in non-strict mode and stores the
    network with its host bits masked off: the line ["10.0.0.5/24"] adds the
    range that starts at the integer form of [10.0.0.0] and ends at that of
    [10.0.0.255]; in general a line that parses adds one entry whose start
    address is the parsed address masked with the netmask, whose last
    address is [start address + (2^(32 - prefix length) - 1)], and whose
    membership test is membership in that interval; so is every entry of a
    built index, and the entry of every parsable line of a listed country's
    member is in the built index. *)
Theorem C5_nonstrict_cidr_block :
  (exists n,
     ipaddress.IPv4Network "10.0.0.5/24" false = Ok n /\
     ipaddress.prefixlen n = 24 /\
     ipaddress.IPv4Address "10.0.0.0" = Ok (ipaddress.network_address n) /\
     ipaddress.IPv4Address "10.0.0.255" = Ok (end_address n) /\
     forall (str_upper : string -> string) (code : string) (acc : list entry),
       add_cidr str_upper code acc "10.0.0.5/24"
       = acc ++ [(ipaddress.network_address n, n, str_upper code)]) /\
  (forall (str_upper : string -> string) (code : string) (acc : list entry)
          (c : string) (n : ipaddress.network),
     ipaddress.IPv4Network (str.strip c) false = Ok n ->
     add_cidr str_upper code acc c
     = acc ++ [(ipaddress.network_address n, n, str_upper code)] /\
     (exists addr mask packed,
        ipaddress.split_addr_prefix (str.strip c) = Ok (addr, mask) /\
        ipaddress.IPv4Address addr = Ok packed /\
        ipaddress.network_address n = Z.land packed (ipaddress.netmask n)) /\
     0 <= ipaddress.prefixlen n <= 32 /\
     ipaddress.broadcast_address n =
       ipaddress.network_address n + (2 ^ (32 - ipaddress.prefixlen n) - 1) /\
     (forall ip, 0 <= ip < 2 ^ 32 ->
        ipaddress.contains n (ipaddress.V4 ip) = true <->
        ipaddress.network_address n <= ip <=
          ipaddress.network_address n + (2 ^ (32 - ipaddress.prefixlen n) - 1))) /\
  (forall (str_upper : string -> string) (TarFile_open : string -> result TarFile)
          (codes : list string) (w w' : World) (self : CountryCidrMapper)
          (e : entry),
     CountryCidrMapper_init str_upper TarFile_open codes w = (Ok self, w') ->
     In e (NETWORK_MAP self) ->
     start_of e = ipaddress.network_address (network_of e) /\
     Z.land (start_of e) (ipaddress.netmask (network_of e)) = start_of e /\
     0 <= ipaddress.prefixlen (network_of e) <= 32 /\
     ipaddress.broadcast_address (network_of e) =
       start_of e + (2 ^ (32 - ipaddress.prefixlen (network_of e)) - 1) /\
     (forall ip, 0 <= ip < 2 ^ 32 ->
        ipaddress.contains (network_of e) (ipaddress.V4 ip) = true <->
        start_of e <= ip <=
          start_of e + (2 ^ (32 - ipaddress.prefixlen (network_of e)) - 1))) /\
  (forall (str_upper : string -> string) (TarFile_open : string -> result TarFile)
          (codes : list string) (w w' : World) (self : CountryCidrMapper)
          (zones : TarFile) (code decoded c : string) (n : ipaddress.network),
     CountryCidrMapper_init str_upper TarFile_open codes w = (Ok self, w') ->
     country_zones self = Some zones ->
     In code codes ->
     getmember zones (zone_member code) = Ok (RegularFile (Some decoded)) ->
     In c (str.split newline (str.strip decoded)) ->
     ipaddress.IPv4Network (str.strip c) false = Ok n ->
     In (ipaddress.network_address n, n, str_upper code) (NETWORK_MAP self)).
Proof.
  split; [| split; [| split]].
  - exists (ipaddress.mk_network 167772160 4294967040 24).
    repeat split; try (vm_compute; reflexivity).
  - intros str_upper code acc c n Hn.
    pose proof (IPv4Network_wf _ _ _ Hn) as Hwf.
    split; [| split; [| split; [apply Hwf | split]]].
    + unfold add_cidr. rewrite (IPv4Network_not_empty _ _ _ Hn), Hn. reflexivity.
    + unfold ipaddress.IPv4Network in Hn.
      apply rbind_Ok in Hn. destruct Hn as [[addr mask] [Hsplit Hn]].
      apply rbind_Ok in Hn. destruct Hn as [packed [Hpacked Hn]].
      apply rbind_Ok in Hn. destruct Hn as [[nm q] [Hmask Hn]].
      exists addr, mask, packed. repeat split; try assumption.
      destruct (Z.eqb_spec (Z.land packed nm) packed) as [Hc | Hc]; cbn [negb] in Hn;
        apply Ok_inj in Hn; subst n; cbn [ipaddress.network_address ipaddress.netmask];
        congruence.
    + apply broadcast_address_end. exact Hwf.
    + intros ip Hip. apply (contains_in_block n ip Hwf Hip).
  - intros str_upper TarFile_open codes w w' self e Hinit He.
    pose proof (init_built _ _ _ _ _ _ Hinit) as [_ Hok].
    rewrite Forall_forall in Hok. destruct (Hok e He) as [Hwf Hstart].
    rewrite Hstart.
    split; [reflexivity |]. split; [apply Hwf |]. split; [apply Hwf |].
    split; [apply broadcast_address_end; exact Hwf |].
    intros ip Hip. apply (contains_in_block _ ip Hwf Hip).
  - intros str_upper TarFile_open codes w w' self zones code decoded c n
      Hinit Hz Hcode Hmem Hc Hn.
    rewrite (init_entries _ _ _ _ _ _ Hinit).
    apply sorted_by_start_In. apply in_flat_map. exists code. split; [exact Hcode |].
    unfold code_entries. rewrite (download_readable self zones code decoded Hz Hmem).
    apply in_flat_map. exists c. split; [exact Hc |].
    rewrite (line_entries_parsed str_upper code c n Hn). left. reflexivity.
Qed.

(** Instances: a line with white space around ["10.0.0.5/24"], and the
    entry that line leaves in a built index. *)
Lemma C5_witness :
  add_cidr str.ascii_upper "us" [] "  10.0.0.5/24 "
  = [(167772160, ipaddress.mk_network 167772160 4294967040 24, "US")] /\
  ipaddress.broadcast_address (ipaddress.mk_network 167772160 4294967040 24)
  = 167772160 + (2 ^ (32 - 24) - 1) /\
  ipaddress.contains (ipaddress.mk_network 167772160 4294967040 24)
    (ipaddress.V4 167772415) = true /\
  In (167772160, ipaddress.mk_network 167772160 4294967040 24, "US")
     (NETWORK_MAP mixed_mapper) /\
  ipaddress.contains (ipaddress.mk_network 167772160 4294967040 24)
    (ipaddress.V4 167772160) = true.
Proof.
  assert (Hn : ipaddress.IPv4Network (str.strip "  10.0.0.5/24 ") false
               = Ok (ipaddress.mk_network 167772160 4294967040 24))
    by (vm_compute; reflexivity).
  destruct (proj1 (proj2 C5_nonstrict_cidr_block) str.ascii_upper "us" [] _ _ Hn)
    as (Hadd & _ & _ & Hb & Hc).
  assert (Hbuild : CountryCidrMapper_init str.ascii_upper (fun _ => Ok mixed_tar)
                     mixed_codes quiet_world
                   = (Ok mixed_mapper, after_download quiet_world))
    by (vm_compute; reflexivity).
  assert (He : In (167772160, ipaddress.mk_network 167772160 4294967040 24, "US")
                  (NETWORK_MAP mixed_mapper)).
  { apply (proj2 (proj2 (proj2 C5_nonstrict_cidr_block)) str.ascii_upper
             (fun _ => Ok mixed_tar) mixed_codes quiet_world
             (after_download quiet_world) mixed_mapper mixed_tar "us"
             mixed_us_text "10.0.0.5/24"
             (ipaddress.mk_network 167772160 4294967040 24) Hbuild).
    - reflexivity.
    - left. reflexivity.
    - reflexivity.
    - left. vm_compute. reflexivity.
    - vm_compute. reflexivity. }
  destruct (proj1 (proj2 (proj2 C5_nonstrict_cidr_block)) str.ascii_upper
              (fun _ => Ok mixed_tar) mixed_codes quiet_world
              (after_download quiet_world) mixed_mapper _ Hbuild He)
    as (_ & _ & _ & _ & Hc').
  split; [exact Hadd |]. split; [exact Hb |].
  split; [apply (proj2 (Hc 167772415 ltac:(lia))); cbn; lia |].
  split; [exact He |].
  apply (proj2 (Hc' 167772160 ltac:(lia))). cbn. lia.
Defined.
